(** * Voxel world of the two clone games: block map, exposure cache, ray picking

    Shallow embedding of [World] (DeepSeek.py) and of [StableDiffusionWorld]
    and [StableCraftWindow.raycast] (StableDiffusion.py).

    - A voxel position is a triple of Python integers, here [Z * Z * Z].
    - The dictionaries [blocks] and [visible_blocks] are finite maps.
    - Python exceptions are explicit: a call returns or raises, and the
      mutations made before the raise stay in the world.
    - Python floats are IEEE 754 binary64 values, here [spec_float] with the
      binary64 operations of the standard library's specification. *)

From Stdlib Require Import ZArith List Lia Bool.
From Stdlib Require Import Floats.SpecFloat Floats.PrimFloat Floats.FloatOps.
From stdpp Require Import gmap strings.

Local Open Scope Z_scope.

(** ** The Python run time the two programs rely on *)
Module Py.

(** The exceptions the modelled code can raise. *)
Inductive exn : Type :=
| TypeError
| KeyError
| ValueError
| OverflowError.

(** Outcome of a call: a returned value or a raised exception. *)
Inductive result (A : Type) : Type :=
| Ret (a : A)
| Raise (e : exn).
Arguments Ret {A} a.
Arguments Raise {A} e.

Definition rbind {A B} (r : result A) (k : A -> result B) : result B :=
  match r with
  | Ret a => k a
  | Raise e => Raise e
  end.

(** *** Floats *)
Definition float : Type := spec_float.
Definition prec : Z := 53.
Definition emax : Z := 1024.

Definition fadd : float -> float -> float := SFadd prec emax.
Definition fsub : float -> float -> float := SFsub prec emax.
Definition fmul : float -> float -> float := SFmul prec emax.
Definition fdiv : float -> float -> float := SFdiv prec emax.

(** [float(n)], the conversion Python applies to an int operand of a float
    operation: the nearest double, ties to even; an int beyond the range of
    the doubles raises. *)
Definition float_of_int (n : Z) : result float :=
  match binary_normalize prec emax n 0 false with
  | S754_infinity _ => Raise OverflowError
  | f => Ret f
  end.

(** The literal [0.1]: 0x1.999999999999ap-4. *)
Definition f0_1 : float := S754_finite false 7205759403792794 (-56).
Definition f0 : float := S754_zero false.
Definition f1 : float := S754_finite false 4503599627370496 (-52).
Definition f2 : float := S754_finite false 4503599627370496 (-51).
Definition f10 : float := S754_finite false 5629499534213120 (-49).

(** The integer nearest to [m * 2^e], ties to the even one. *)
Definition round_half_even (m : positive) (e : Z) : Z :=
  match e with
  | Zneg k =>
      let d := 2 ^ Zpos k in
      let q := Zpos m / d in
      let r := Zpos m mod d in
      match 2 * r ?= d with
      | Lt => q
      | Gt => q + 1
      | Eq => if Z.even q then q else q + 1
      end
  | _ => Zpos m * 2 ^ e
  end.

(** [int(round(x))] on a float: Python rounds half to even and returns an
    int; [round] raises on NaN and on the infinities. *)
Definition py_round (x : float) : result Z :=
  match x with
  | S754_nan => Raise ValueError
  | S754_infinity _ => Raise OverflowError
  | S754_zero _ => Ret 0
  | S754_finite s m e => Ret (cond_Zopp s (round_half_even m e))
  end.

(** [int(x)] on a float: truncation toward zero, raising on NaN and on the
    infinities. *)
Definition py_int (x : float) : result Z :=
  match x with
  | S754_nan => Raise ValueError
  | S754_infinity _ => Raise OverflowError
  | S754_zero _ => Ret 0
  | S754_finite s m e =>
      Ret (cond_Zopp s
             match e with
             | Zneg k => Zpos m / 2 ^ Zpos k
             | _ => Zpos m * 2 ^ e
             end)
  end.

(** [range(lo, hi)] *)
Definition range (lo hi : Z) : list Z :=
  map (fun i => lo + Z.of_nat i) (seq 0 (Z.to_nat (hi - lo))).

(** [min(a, b)] and [max(a, b)] on two numbers: the first argument is kept
    unless the second compares strictly below, respectively above, it. *)
Definition py_min (a b : float) : float := if SFltb b a then b else a.
Definition py_max (a b : float) : float := if SFltb a b then b else a.

(** Further literals of the two programs, as binary64 values. *)
Definition fm1 : float := S754_finite true 4503599627370496 (-52).
Definition f5 : float := S754_finite false 5629499534213120 (-50).
Definition f8 : float := S754_finite false 4503599627370496 (-49).
Definition f30 : float := S754_finite false 8444249301319680 (-48).
Definition fm30 : float := S754_finite true 8444249301319680 (-48).
Definition f90 : float := S754_finite false 6333186975989760 (-46).
Definition fm90 : float := S754_finite true 6333186975989760 (-46).
Definition f0_01 : float := S754_finite false 5764607523034235 (-59).
Definition f0_02 : float := S754_finite false 5764607523034235 (-58).
Definition f0_15 : float := S754_finite false 5404319552844595 (-55).
Definition f0_2 : float := S754_finite false 7205759403792794 (-55).
Definition f0_5 : float := S754_finite false 4503599627370496 (-53).
Definition fm0_5 : float := S754_finite true 4503599627370496 (-53).
Definition f0_6 : float := S754_finite false 5404319552844595 (-53).
Definition f1_8 : float := S754_finite false 8106479329266893 (-52).

(** The colour components of StableDiffusion.py. *)
Definition f0_3 : float := S754_finite false 5404319552844595 (-54).
Definition f0_4 : float := S754_finite false 7205759403792794 (-54).
Definition f0_7 : float := S754_finite false 6305039478318694 (-53).
Definition f0_8 : float := S754_finite false 7205759403792794 (-53).
Definition f0_9 : float := S754_finite false 8106479329266893 (-53).
Definition f0_95 : float := S754_finite false 8556839292003942 (-53).

#[global] Instance float_eq_dec : EqDecision spec_float.
Proof. solve_decision. Defined.

End Py.

Export Py.

(** ** pyglet's batch of vertex lists

    pyglet is an external library.  Of [Batch.add(count, mode, group, *data)]
    the model keeps what the programs depend on: each attribute array must
    hold [count] times its number of components values, as its format says
    ('v3f': 3, 't2f': 2, 'c3f': 3); otherwise the call raises [ValueError] and
    returns no vertex list.  What a failed call leaves inside the batch is
    pyglet's own business, and no property below speaks of it. *)
Module Pyglet.

(** A vertex list: its number of vertices and its attribute arrays, each with
    its number of components per vertex. *)
Record VertexList : Type := mkVertexList {
  vl_count : nat;
  vl_data : list (nat * list float)
}.

#[global] Instance VertexList_eq_dec : EqDecision VertexList.
Proof. solve_decision. Defined.

Definition Batch : Type := list VertexList.

(** [pyglet.graphics.Batch()] *)
Definition new_batch : Batch := [].

(** The array holds [count * components] values. *)
Definition array_fits (count : nat) (array : nat * list float) : bool :=
  let '(components, values) := array in
  (length values =? count * components)%nat.

(** [batch.add(count, GL_QUADS, None, *data)]: the new vertex list and the
    batch holding it, or [ValueError] when an array does not fit. *)
Definition batch_add (b : Batch) (count : nat) (data : list (nat * list float))
  : result (VertexList * Batch) :=
  if forallb (array_fits count) data then
    let vl := mkVertexList count data in Ret (vl, b ++ [vl])
  else Raise ValueError.

(** [vertex_list.delete()] *)
Fixpoint vertex_list_delete (vl : VertexList) (b : Batch) : Batch :=
  match b with
  | [] => []
  | v :: b' => if decide (v = vl) then b' else v :: vertex_list_delete vl b'
  end.

(** pyglet's mouse buttons and key symbols: distinct integer constants, of
    which the programs compare these. *)
Module mouse.
Inductive button : Type := LEFT | MIDDLE | RIGHT.
End mouse.

Module key.
Inductive symbol : Type := W | S | A | D | SPACE | TAB | ESCAPE | R | OTHER.
End key.

End Pyglet.

Export Pyglet.

(** A voxel position: the key of the block dictionaries. *)
Definition pos : Type := Z * Z * Z.

(** [key in d] for a dictionary. *)
Definition contains {V} (d : gmap pos V) (key : pos) : bool :=
  match d !! key with
  | Some _ => true
  | None => false
  end.

(** ** DeepSeek.py *)
Module DeepSeek.

(** A component of an entry of [FACE_VECTORS]: an int in the six face
    vectors, a tuple of three ints in the seventh entry. *)
Inductive component : Type :=
| CInt (d : Z)
| CTuple (t : Z * Z * Z).

Definition face_vector : Type := component * component * component.

Definition FACE_VECTORS : list face_vector :=
  [ (CInt 1, CInt 0, CInt 0);       (* Right *)
    (CInt 0, CInt 1, CInt 0);       (* Top *)
    (CInt 0, CInt 0, CInt 1);       (* Front *)
    (CInt 0, CInt 0, CInt (-1));    (* Back *)
    (CInt 0, CInt (-1), CInt 0);    (* Bottom *)
    (CInt (-1), CInt 0, CInt 0);    (* Left *)
    (CTuple (1, 1, 1), CTuple (1, -1, 1), CTuple (-1, 1, -1)) (* seven *) ].

(** [x + dx] with [x] an int: int plus tuple is a [TypeError]. *)
Definition int_add (x : Z) (dx : component) : result Z :=
  match dx with
  | CInt d => Ret (x + d)
  | CTuple _ => Raise TypeError
  end.

(** [(x + dx, y + dy, z + dz)], evaluated left to right. *)
Definition offset (position : pos) (v : face_vector) : result pos :=
  let '(x, y, z) := position in
  let '(dx, dy, dz) := v in
  rbind (int_add x dx) (fun nx =>
  rbind (int_add y dy) (fun ny =>
  rbind (int_add z dz) (fun nz =>
  Ret (nx, ny, nz)))).

(** The fields of [World]; [sectors] is never read or written after
    [__init__] and is left out. *)
Record World : Type := mkWorld {
  batch : Batch;
  blocks : gmap pos string;
  visible_blocks : gmap pos VertexList
}.

(** [World.__init__] before [build_world] runs. *)
Definition empty_world : World := mkWorld new_batch ∅ ∅.

(** A method of [World]: it returns or raises, and leaves a world. *)
Definition M (A : Type) : Type := World -> result A * World.

Definition ret {A} (a : A) : M A := fun w => (Ret a, w).
Definition bind {A B} (c : M A) (k : A -> M B) : M B :=
  fun w =>
    match c w with
    | (Ret a, w') => k a w'
    | (Raise e, w') => (Raise e, w')
    end.
Definition get : M World := fun w => (Ret w, w).
Definition lift {A} (r : result A) : M A := fun w => (r, w).

Notation "'let*' x ':=' c 'in' k" := (bind c (fun x => k))
  (at level 10, x name, c at level 100, k at level 200).

Fixpoint for_each {A} (l : list A) (body : A -> M unit) : M unit :=
  match l with
  | [] => ret tt
  | a :: l' => let* _ := body a in for_each l' body
  end.

(** The loop of [is_visible] over the entries still to visit. *)
Fixpoint is_visible_loop (blocks : gmap pos string) (position : pos)
  (vectors : list face_vector) : result bool :=
  match vectors with
  | [] => Ret false
  | v :: vectors' =>
      rbind (offset position v) (fun neighbor =>
      if negb (contains blocks neighbor) then Ret true
      else is_visible_loop blocks position vectors')
  end.

Definition is_visible (blocks : gmap pos string) (position : pos) : result bool :=
  is_visible_loop blocks position FACE_VECTORS.

Definition BLOCK_HALF_SIZE : float := f0_5.

(** [Block.create_vertices(x, y, z, n)] with [x], [y], [z] ints and [n] a
    float: seven rows of twelve coordinates. *)
Definition create_vertices (x y z : Z) (n : float) : result (list float) :=
  rbind (float_of_int x) (fun fx =>
  rbind (float_of_int y) (fun fy =>
  rbind (float_of_int z) (fun fz =>
  let xp := fadd fx n in let xm := fsub fx n in
  let yp := fadd fy n in let ym := fsub fy n in
  let zp := fadd fz n in let zm := fsub fz n in
  Ret [ xp; ym; zp; xp; ym; zm; xp; yp; zm; xp; yp; zp;    (* Right *)
        xm; ym; zm; xm; ym; zp; xm; yp; zp; xm; yp; zm;    (* Left *)
        xm; yp; zm; xm; yp; zp; xp; yp; zp; xp; yp; zm;    (* Top *)
        xm; ym; zm; xp; ym; zm; xp; ym; zp; xm; ym; zp;    (* Bottom *)
        xm; ym; zp; xp; ym; zp; xp; yp; zp; xm; yp; zp;    (* Front *)
        xm; ym; zm; xm; yp; zm; xp; yp; zm; xp; ym; zm;    (* Back *)
        xp; yp; zp; xp; yp; zm; xm; ym; zp; xm; ym; zm ]))). (* seven *)

(** [BLOCK]: for each block type the atlas cells of its top, bottom and side. *)
Definition BLOCK : gmap string ((Z * Z) * (Z * Z) * (Z * Z)) :=
  list_to_map
    [ ("GRASS", ((1, 0), (1, 0), (1, 0)));
      ("WATER", ((0, 1), (0, 1), (0, 1)));
      ("STONE", ((2, 1), (2, 1), (2, 1)));
      ("DIRT",  ((2, 0), (2, 0), (2, 0)));
      ("SAND",  ((1, 1), (1, 1), (1, 1)));
      ("WOOD",  ((1, 2), (1, 2), (1, 2)));
      ("BRICK", ((2, 2), (2, 2), (2, 2))) ]%string.

(** [tex_coord(x, y, n)]: [m = 1.0 / n], then
    [(x * m, y * m, (x + 1) * m, (y + 1) * m)]. *)
Definition tex_coord (cell : Z * Z) (n : Z) : result (list float) :=
  let '(x, y) := cell in
  rbind (float_of_int n) (fun fn =>
  let m := fdiv f1 fn in
  rbind (float_of_int x) (fun fx =>
  rbind (float_of_int y) (fun fy =>
  rbind (float_of_int (x + 1)) (fun fx1 =>
  rbind (float_of_int (y + 1)) (fun fy1 =>
  Ret [fmul fx m; fmul fy m; fmul fx1 m; fmul fy1 m]))))).

(** [get_texture_coords(block_type)]: side, side, top, bottom, side, side. *)
Definition get_texture_coords (block_type : string) : result (list float) :=
  match BLOCK !! "STONE"%string with
  | None => Raise KeyError
  | Some stone =>
      let '(top, bottom, side) := default stone (BLOCK !! block_type) in
      rbind (tex_coord side 4) (fun t1 =>
      rbind (tex_coord side 4) (fun t2 =>
      rbind (tex_coord top 4) (fun t3 =>
      rbind (tex_coord bottom 4) (fun t4 =>
      rbind (tex_coord side 4) (fun t5 =>
      rbind (tex_coord side 4) (fun t6 =>
      Ret (t1 ++ t2 ++ t3 ++ t4 ++ t5 ++ t6)))))))
  end.

(** [make_visible(position)]: the block type is looked up, the vertices and
    the texture coordinates are computed, and [batch.add(24, GL_QUADS, None,
    ('v3f/static', vertices), ('t2f/static', tex_coords))] is asked for the
    vertex list to store. *)
Definition make_visible (position : pos) : M unit :=
  fun w =>
    if contains (visible_blocks w) position then (Ret tt, w)
    else
      match blocks w !! position with
      | None => (Raise KeyError, w)
      | Some block_type =>
          let '(x, y, z) := position in
          match
            rbind (create_vertices x y z BLOCK_HALF_SIZE) (fun vertices =>
            rbind (get_texture_coords block_type) (fun tex_coords =>
            batch_add (batch w) 24 [(3%nat, vertices); (2%nat, tex_coords)]))
          with
          | Raise e => (Raise e, w)
          | Ret (vl, b) =>
              (Ret tt, mkWorld b (blocks w) (<[position := vl]> (visible_blocks w)))
          end
      end.

Definition make_hidden (position : pos) : M unit :=
  fun w =>
    match visible_blocks w !! position with
    | Some vl =>
        (Ret tt, mkWorld (vertex_list_delete vl (batch w)) (blocks w)
                   (delete position (visible_blocks w)))
    | None => (Ret tt, w)
    end.

(** [self.blocks[position] = block_type] *)
Definition set_block (position : pos) (block_type : string) : M unit :=
  fun w =>
    (Ret tt, mkWorld (batch w) (<[position := block_type]> (blocks w)) (visible_blocks w)).

(** [del self.blocks[position]], used where the key is present. *)
Definition del_block (position : pos) : M unit :=
  fun w =>
    (Ret tt, mkWorld (batch w) (delete position (blocks w)) (visible_blocks w)).

(** One round of the neighbour loop of [add_block]. *)
Definition add_block_neighbor (position : pos) (v : face_vector) : M unit :=
  let* neighbor := lift (offset position v) in
  let* w := get in
  if contains (blocks w) neighbor && contains (visible_blocks w) neighbor then
    let* vis := lift (is_visible (blocks w) neighbor) in
    if negb vis then make_hidden neighbor else ret tt
  else if contains (blocks w) neighbor && negb (contains (visible_blocks w) neighbor) then
    let* vis := lift (is_visible (blocks w) neighbor) in
    if vis then make_visible neighbor else ret tt
  else ret tt.

Definition add_block (position : pos) (block_type : string) : M unit :=
  let* w := get in
  if contains (blocks w) position then ret tt
  else
    let* _ := set_block position block_type in
    let* w := get in
    let* vis := lift (is_visible (blocks w) position) in
    let* _ := (if vis then make_visible position else ret tt) in
    for_each FACE_VECTORS (add_block_neighbor position).

(** One round of the neighbour loop of [remove_block]. *)
Definition remove_block_neighbor (position : pos) (v : face_vector) : M unit :=
  let* neighbor := lift (offset position v) in
  let* w := get in
  if contains (blocks w) neighbor && negb (contains (visible_blocks w) neighbor) then
    let* vis := lift (is_visible (blocks w) neighbor) in
    if vis then make_visible neighbor else ret tt
  else ret tt.

Definition remove_block (position : pos) : M unit :=
  let* w := get in
  if contains (blocks w) position then
    let* _ := del_block position in
    let* w := get in
    let* _ := (if contains (visible_blocks w) position then make_hidden position
               else ret tt) in
    for_each FACE_VECTORS (remove_block_neighbor position)
  else ret tt.

Definition is_block_at (w : World) (p : pos) : bool := contains (blocks w) p.

Definition step_size : float := f0_1.

Definition vec3 : Type := float * float * float.

(** [(int(round(c[0])), int(round(c[1])), int(round(c[2])))] *)
Definition round3 (c : vec3) : result pos :=
  let '(c0, c1, c2) := c in
  rbind (py_round c0) (fun x =>
  rbind (py_round c1) (fun y =>
  rbind (py_round c2) (fun z =>
  Ret (x, y, z)))).

(** [current[i] += direction[i] * step_size] for the three coordinates. *)
Definition advance (direction current : vec3) : vec3 :=
  let '(d0, d1, d2) := direction in
  let '(c0, c1, c2) := current in
  (fadd c0 (fmul d0 step_size), fadd c1 (fmul d1 step_size), fadd c2 (fmul d2 step_size)).

(** [current[i] - direction[i] * step_size] for the three coordinates. *)
Definition retreat (direction current : vec3) : vec3 :=
  let '(d0, d1, d2) := direction in
  let '(c0, c1, c2) := current in
  (fsub c0 (fmul d0 step_size), fsub c1 (fmul d1 step_size), fsub c2 (fmul d2 step_size)).

(** The [for] loop of [raycast] with [n] rounds left. *)
Fixpoint raycast_loop (blocks : gmap pos string) (direction : vec3) (n : nat)
  (current : vec3) : result (option pos * option pos) :=
  match n with
  | O => Ret (None, None)
  | S n' =>
      rbind (round3 current) (fun block_pos =>
      if contains blocks block_pos then
        rbind (round3 (retreat direction current)) (fun prev =>
        Ret (Some block_pos, Some prev))
      else raycast_loop blocks direction n' (advance direction current))
  end.

(** [raycast(start, direction, max_distance)].  The three arguments are
    floats; Python ints of the same value give the same run, since an int
    operand of a float operation is converted first.  The result is the pair
    [(None, None)] or [(block_pos, prev)]. *)
Definition raycast (w : World) (start direction : vec3) (max_distance : float)
  : result (option pos * option pos) :=
  rbind (py_int (fdiv max_distance step_size)) (fun n =>
  raycast_loop (blocks w) direction (Z.to_nat n) start).

Definition WORLD_HALF : Z := 30.

(** The first loop of [build_world]: the ground. *)
Definition build_ground : M unit :=
  for_each (range (- WORLD_HALF) (WORLD_HALF + 1)) (fun x =>
  for_each (range (- WORLD_HALF) (WORLD_HALF + 1)) (fun z =>
    let* _ := add_block (x, -1, z) "GRASS" in
    add_block (x, -2, z) "STONE")).

(** [build_world].  The second loop, the hills, draws its centres, heights,
    radii and block types from [random]; it is the parameter [hills]. *)
Definition build_world (hills : M unit) : M unit :=
  let* _ := build_ground in
  hills.

(** [World()]: the fields are set, then [build_world] runs. *)
Definition World_init (hills : M unit) : result unit * World :=
  build_world hills empty_world.

(** *** The player and the window

    Positions, rotations and velocities start as lists of ints and hold floats
    once the game runs; an int and the float of the same value behave alike in
    the arithmetic and comparisons below, so the fields are floats. *)
Record Player : Type := mkPlayer {
  position : vec3;
  rotation : float * float;       (* [yaw, pitch] *)
  velocity : vec3;
  on_ground : bool;
  flying : bool;
  height : float;
  width : float
}.

(** [Player()] *)
Definition new_player : Player :=
  mkPlayer (f0, f0, f0) (f0, f0) (f0, f0, f0) false false f1_8 f0_6.

(** The fields of [GameWindow] that are the game's own: the texture, the
    crosshair and the label are pyglet objects. *)
Record GameWindow : Type := mkGameWindow {
  world : World;
  player : Player;
  strafe : Z * Z;                 (* [forward/back, left/right] *)
  mouse_locked : bool
}.

Definition set_world (g : GameWindow) (w : World) : GameWindow :=
  mkGameWindow w (player g) (strafe g) (mouse_locked g).

Definition set_player (g : GameWindow) (pl : Player) : GameWindow :=
  mkGameWindow (world g) pl (strafe g) (mouse_locked g).

(** [on_mouse_press(x, y, button, modifiers)].  [direction] is what
    [get_view_direction] returns, computed with [math.cos] and [math.sin]. *)
Definition on_mouse_press (direction : vec3) (button : mouse.button) (g : GameWindow)
  : result unit * GameWindow :=
  if negb (mouse_locked g) then
    (Ret tt, mkGameWindow (world g) (player g) (strafe g) true)
  else
    match raycast (world g) (position (player g)) direction f10 with
    | Raise e => (Raise e, g)
    | Ret (hit_pos, adjacent_pos) =>
        match button, hit_pos, adjacent_pos with
        | mouse.LEFT, Some hit, _ =>
            let '(r, w') := remove_block hit (world g) in (r, set_world g w')
        | mouse.RIGHT, _, Some adjacent =>
            let '(r, w') := add_block adjacent "BRICK" (world g) in (r, set_world g w')
        | _, _, _ => (Ret tt, g)
        end
    end.

(** [on_mouse_motion(x, y, dx, dy)] *)
Definition on_mouse_motion (dx dy : float) (g : GameWindow) : GameWindow :=
  if mouse_locked g then
    let sensitivity := f0_15 in
    let pl := player g in
    let '(yaw, pitch) := rotation pl in
    let yaw := fadd yaw (fmul dx sensitivity) in
    let pitch := fsub pitch (fmul dy sensitivity) in
    let pitch := py_max fm90 (py_min f90 pitch) in
    set_player g (mkPlayer (position pl) (yaw, pitch) (velocity pl)
                    (on_ground pl) (flying pl) (height pl) (width pl))
  else g.

(** [on_key_press(symbol, modifiers)] *)
Definition on_key_press (symbol : key.symbol) (g : GameWindow) : GameWindow :=
  let pl := player g in
  let '(s0, s1) := strafe g in
  match symbol with
  | key.W => mkGameWindow (world g) pl (s0 - 1, s1) (mouse_locked g)
  | key.S => mkGameWindow (world g) pl (s0 + 1, s1) (mouse_locked g)
  | key.A => mkGameWindow (world g) pl (s0, s1 - 1) (mouse_locked g)
  | key.D => mkGameWindow (world g) pl (s0, s1 + 1) (mouse_locked g)
  | key.SPACE =>
      if on_ground pl || flying pl then
        let '(v0, v1, v2) := velocity pl in
        set_player g (mkPlayer (position pl) (rotation pl) (v0, f0_15, v2)
                        (on_ground pl) (flying pl) (height pl) (width pl))
      else g
  | key.TAB =>
      set_player g (mkPlayer (position pl) (rotation pl) (velocity pl)
                      (on_ground pl) (negb (flying pl)) (height pl) (width pl))
  | key.ESCAPE => mkGameWindow (world g) pl (strafe g) false
  | _ => g
  end.

(** [on_key_release(symbol, modifiers)] *)
Definition on_key_release (symbol : key.symbol) (g : GameWindow) : GameWindow :=
  let '(s0, s1) := strafe g in
  match symbol with
  | key.W => mkGameWindow (world g) (player g) (s0 + 1, s1) (mouse_locked g)
  | key.S => mkGameWindow (world g) (player g) (s0 - 1, s1) (mouse_locked g)
  | key.A => mkGameWindow (world g) (player g) (s0, s1 + 1) (mouse_locked g)
  | key.D => mkGameWindow (world g) (player g) (s0, s1 - 1) (mouse_locked g)
  | _ => g
  end.

(** The values of [range(-1, 2)], as added to a float coordinate. *)
Definition around : list float := [fm1; f0; f1].

(** The offsets [(dx, dy, dz)] in the order of the three nested loops of
    [collide]. *)
Definition box_offsets : list vec3 :=
  flat_map (fun dx => flat_map (fun dy => map (fun dz => (dx, dy, dz)) around) around)
    around.

(** The intersection test of [collide] for the block at [(bx, by, bz)]. *)
Definition intersects (w h : float) (new_pos : vec3) (bx by_ bz : float) : bool :=
  let '(px, py, pz) := new_pos in
  let bmin := (fsub bx BLOCK_HALF_SIZE, fsub by_ BLOCK_HALF_SIZE, fsub bz BLOCK_HALF_SIZE) in
  let bmax := (fadd bx BLOCK_HALF_SIZE, fadd by_ BLOCK_HALF_SIZE, fadd bz BLOCK_HALF_SIZE) in
  let pmin := (fsub px w, py, fsub pz w) in
  let pmax := (fadd px w, fadd py h, fadd pz w) in
  let '(bmin0, bmin1, bmin2) := bmin in
  let '(bmax0, bmax1, bmax2) := bmax in
  let '(pmin0, pmin1, pmin2) := pmin in
  let '(pmax0, pmax1, pmax2) := pmax in
  SFltb pmin0 bmax0 && SFltb bmin0 pmax0 &&
  SFltb pmin1 bmax1 && SFltb bmin1 pmax1 &&
  SFltb pmin2 bmax2 && SFltb bmin2 pmax2.

(** The loops of [collide] over the offsets still to visit. *)
Fixpoint collide_loop (g : GameWindow) (w h : float) (new_pos : vec3)
  (offsets : list vec3) : result vec3 :=
  match offsets with
  | [] => Ret new_pos
  | (dx, dy, dz) :: offsets' =>
      let '(px, py, pz) := new_pos in
      rbind (round3 (fadd px dx, fadd py dy, fadd pz dz)) (fun '(bx, by_, bz) =>
      if is_block_at (world g) (bx, by_, bz) then
        rbind (float_of_int bx) (fun fbx =>
        rbind (float_of_int by_) (fun fby =>
        rbind (float_of_int bz) (fun fbz =>
        if intersects w h new_pos fbx fby fbz then Ret (position (player g))
        else collide_loop g w h new_pos offsets')))
      else collide_loop g w h new_pos offsets')
  end.

(** [collide(new_pos)] *)
Definition collide (g : GameWindow) (new_pos : vec3) : result vec3 :=
  let w := fdiv (width (player g)) f2 in
  let h := height (player g) in
  collide_loop g w h new_pos box_offsets.

(** [update(dt)].  [move_vec] is what [get_movement_vector(self.strafe)]
    returns, computed with [math.cos] and [math.sin]. *)
Definition update (move_vec : vec3) (dt : float) (g : GameWindow)
  : result unit * GameWindow :=
  let pl := player g in
  let '(m0, m1, m2) := move_vec in
  let '(v0, v1, v2) := velocity pl in
  let v1 := if negb (flying pl) then py_max (fsub v1 f0_01) fm0_5 else v1 in
  let pl := mkPlayer (position pl) (rotation pl) (v0, v1, v2)
              (on_ground pl) (flying pl) (height pl) (width pl) in
  let g := set_player g pl in
  let '(p0, p1, p2) := position pl in
  let new_pos := (fadd p0 (fmul (fmul m0 dt) f5), fadd p1 v1, fadd p2 (fmul (fmul m2 dt) f5)) in
  match collide g new_pos with
  | Raise e => (Raise e, g)
  | Ret (n0, n1, n2) =>
      let ground_level := fm1 in
      let '(n1, v1, grounded) :=
        if SFltb n1 ground_level then (ground_level, f0, true) else (n1, v1, false) in
      let n0 := py_max fm30 (py_min f30 n0) in
      let n2 := py_max fm30 (py_min f30 n2) in
      (Ret tt, set_player g (mkPlayer (n0, n1, n2) (rotation pl) (v0, v1, v2)
                               grounded (flying pl) (height pl) (width pl)))
  end.

End DeepSeek.

(** ** StableDiffusion.py *)
Module StableDiffusion.

Definition CHUNK_s : Z := 16.
Definition RENDER_DISTANCE : Z := 4.

(** The fields of [StableDiffusionWorld] that the block operations and
    [rebuild_batch] use; the seed, the noise scales, the textures and [chunks]
    belong to terrain generation. *)
Record World : Type := mkWorld {
  blocks : gmap pos string;
  visible_blocks : gmap pos VertexList;
  batch : Batch
}.

(** [StableDiffusionWorld.__init__], as far as the three fields go. *)
Definition empty_world : World := mkWorld ∅ ∅ new_batch.

Definition neighbors (p : pos) : list pos :=
  let '(x, y, z) := p in
  [ (x + 1, y, z); (x - 1, y, z);
    (x, y + 1, z); (x, y - 1, z);
    (x, y, z + 1); (x, y, z - 1) ].

(** The loop of [is_exposed] over the neighbours still to visit. *)
Fixpoint is_exposed_loop (blocks : gmap pos string) (ns : list pos) : bool :=
  match ns with
  | [] => false
  | neighbor :: ns' =>
      if negb (contains blocks neighbor) then true else is_exposed_loop blocks ns'
  end.

Definition is_exposed (blocks : gmap pos string) (p : pos) : bool :=
  is_exposed_loop blocks (neighbors p).

Definition add_block (p : pos) (block_type : string) (w : World) : World :=
  mkWorld (<[p := block_type]> (blocks w)) (visible_blocks w) (batch w).

Definition remove_block (p : pos) (w : World) : World :=
  if contains (blocks w) p
  then mkWorld (delete p (blocks w)) (visible_blocks w) (batch w)
  else w.

(** [abs(x - px) < render_sq and abs(z - pz) < render_sq] with [x], [z] ints,
    [px], [pz] floats and [render_sq] the int 64. *)
Definition within_render_distance (x z : Z) (px pz : float) : result bool :=
  rbind (float_of_int (RENDER_DISTANCE * CHUNK_s)) (fun render_sq =>
  rbind (float_of_int x) (fun fx =>
  if SFltb (SFabs (fsub fx px)) render_sq then
    rbind (float_of_int z) (fun fz =>
    Ret (SFltb (SFabs (fsub fz pz)) render_sq))
  else Ret false)).

(** [self.textures], set by [generate_base_textures]: an RGB colour for each
    block type. *)
Definition textures : gmap string (float * float * float) :=
  list_to_map
    [ ("grass", (f0_2, f0_8, f0_3));
      ("dirt", (f0_5, f0_4, f0_2));
      ("stone", (f0_6, f0_6, f0_6));
      ("sand", (f0_9, f0_8, f0_5));
      ("water", (f0_2, f0_5, f0_9));
      ("wood", (f0_6, f0_4, f0_2));
      ("leaves", (f0_3, f0_7, f0_3));
      ("snow", (f0_95, f0_95, f0_95));
      ("bedrock", (f0_2, f0_2, f0_2)) ]%string.

(** [get_block_color(block_type)]: white for an unknown type, the ints
    [(1, 1, 1)], which the 'c3f' array of the batch holds as floats. *)
Definition get_block_color (block_type : string) : float * float * float :=
  default (f1, f1, f1) (textures !! block_type).

(** [create_cube_vertices(x, y, z, block_type)]: six faces of four vertices,
    and for each vertex the colour. *)
Definition create_cube_vertices (x y z : Z) (block_type : string)
  : result (list float * list float) :=
  let s := f0_5 in
  let '(r, g, b) := get_block_color block_type in
  rbind (float_of_int x) (fun fx =>
  rbind (float_of_int y) (fun fy =>
  rbind (float_of_int z) (fun fz =>
  let xp := fadd fx s in let xm := fsub fx s in
  let yp := fadd fy s in let ym := fsub fy s in
  let zp := fadd fz s in let zm := fsub fz s in
  let color4 := [r; g; b; r; g; b; r; g; b; r; g; b] in
  Ret ([ xm; ym; zp; xp; ym; zp; xp; yp; zp; xm; yp; zp ] ++   (* Front *)
       [ xm; ym; zm; xm; yp; zm; xp; yp; zm; xp; ym; zm ] ++   (* Back *)
       [ xp; ym; zm; xp; yp; zm; xp; yp; zp; xp; ym; zp ] ++   (* Right *)
       [ xm; ym; zm; xm; ym; zp; xm; yp; zp; xm; yp; zm ] ++   (* Left *)
       [ xm; yp; zm; xm; yp; zp; xp; yp; zp; xp; yp; zm ] ++   (* Top *)
       [ xm; ym; zm; xp; ym; zm; xp; ym; zp; xm; ym; zp ],     (* Bottom *)
       color4 ++ color4 ++ color4 ++ color4 ++ color4 ++ color4)))).

(** The loop of [rebuild_batch] over the items still to visit.  [blocks] is
    not written in the loop, so it is a parameter.  A block in view and
    exposed gets its vertex list from [batch.add(24, GL_QUADS, None,
    ('v3f/static', vertices), ('c3f/static', colors))]. *)
Fixpoint rebuild_loop (blocks : gmap pos string) (px pz : float)
  (items : list (pos * string)) (vis : gmap pos VertexList) (b : Batch)
  : result unit * (gmap pos VertexList * Batch) :=
  match items with
  | [] => (Ret tt, (vis, b))
  | ((x, y, z), block_type) :: items' =>
      match within_render_distance x z px pz with
      | Raise e => (Raise e, (vis, b))
      | Ret true =>
          if is_exposed blocks (x, y, z) then
            match
              rbind (create_cube_vertices x y z block_type) (fun '(vertices, colors) =>
              batch_add b 24 [(3%nat, vertices); (3%nat, colors)])
            with
            | Raise e => (Raise e, (vis, b))
            | Ret (vl, b') =>
                rebuild_loop blocks px pz items' (<[(x, y, z) := vl]> vis) b'
            end
          else rebuild_loop blocks px pz items' vis b
      | Ret false => rebuild_loop blocks px pz items' vis b
      end
  end.

(** [rebuild_batch(player_pos)].  The items are visited in the order of
    [map_to_list]; Python visits them in insertion order, which decides
    only the order of the vertex lists inside the batch. *)
Definition rebuild_batch (player_pos : float * float * float) (w : World)
  : result unit * World :=
  let '(px, py, pz) := player_pos in
  let '(r, (vis, b)) :=
    rebuild_loop (blocks w) px pz (map_to_list (blocks w)) ∅ new_batch in
  (r, mkWorld (blocks w) vis b).

Definition step : float := f0_1.

Definition vec3 : Type := float * float * float.

Definition round3 (c : vec3) : result pos :=
  let '(c0, c1, c2) := c in
  rbind (py_round c0) (fun x =>
  rbind (py_round c1) (fun y =>
  rbind (py_round c2) (fun z =>
  Ret (x, y, z)))).

Definition advance (direction current : vec3) : vec3 :=
  let '(d0, d1, d2) := direction in
  let '(c0, c1, c2) := current in
  (fadd c0 (fmul d0 step), fadd c1 (fmul d1 step), fadd c2 (fmul d2 step)).

Definition retreat (direction current : vec3) : vec3 :=
  let '(d0, d1, d2) := direction in
  let '(c0, c1, c2) := current in
  (fsub c0 (fmul d0 step), fsub c1 (fmul d1 step), fsub c2 (fmul d2 step)).

(** The [for] loop of [StableCraftWindow.raycast] with [n] rounds left. *)
Fixpoint raycast_loop (blocks : gmap pos string) (direction : vec3) (n : nat)
  (current : vec3) : result (option pos * option pos) :=
  match n with
  | O => Ret (None, None)
  | S n' =>
      rbind (round3 current) (fun block_pos =>
      if contains blocks block_pos then
        rbind (round3 (retreat direction current)) (fun prev_pos =>
        Ret (Some block_pos, Some prev_pos))
      else raycast_loop blocks direction n' (advance direction current))
  end.

(** [StableCraftWindow.raycast], reading [self.world.blocks]. *)
Definition raycast (world : World) (start direction : vec3) (max_distance : float)
  : result (option pos * option pos) :=
  rbind (py_int (fdiv max_distance step)) (fun n =>
  raycast_loop (blocks world) direction (Z.to_nat n) start).

(** *** Terrain helpers that read or write [blocks] only *)

(** The offsets [(dx, dz)] of the two nested loops of [should_generate_tree]. *)
Definition tree_offsets : list (Z * Z) :=
  flat_map (fun dx => map (fun dz => (dx, dz)) [-2; -1; 0; 1; 2]) [-2; -1; 0; 1; 2].

Fixpoint should_generate_tree_loop (blocks : gmap pos string) (x y z : Z)
  (offsets : list (Z * Z)) : bool :=
  match offsets with
  | [] => true
  | (dx, dz) :: offsets' =>
      if (dx =? 0) && (dz =? 0) then should_generate_tree_loop blocks x y z offsets'
      else if contains blocks (x + dx, y, z + dz) then false
      else should_generate_tree_loop blocks x y z offsets'
  end.

Definition should_generate_tree (blocks : gmap pos string) (x y z : Z) : bool :=
  should_generate_tree_loop blocks x y z tree_offsets.

(** [get_chunk_key(x, z)] on ints: floor division. *)
Definition get_chunk_key (x z : Z) : Z * Z := (x / CHUNK_s, z / CHUNK_s).

(** The columns [(x, z)] that the loops of [generate_chunk(cx, cz)] visit. *)
Definition chunk_columns (cx cz : Z) : list (Z * Z) :=
  flat_map (fun x => map (fun z => (x, z)) (range (cz * CHUNK_s) ((cz + 1) * CHUNK_s)))
    (range (cx * CHUNK_s) ((cx + 1) * CHUNK_s)).

(** What [generate_tree] draws from [random]: the trunk height, from
    [randint(4, 6)], and the values of the successive calls of
    [random.random()]. *)
Record tree_draws : Type := mkTreeDraws {
  trunk_height : Z;
  leaf_draw : nat -> float
}.

(** The trunk loop: [blocks[(x, y + dy, z)] = 'wood'] for [dy] in [dys]. *)
Fixpoint trunk_loop (x y z : Z) (dys : list Z) (blocks : gmap pos string)
  : gmap pos string :=
  match dys with
  | [] => blocks
  | dy :: dys' => trunk_loop x y z dys' (<[(x, y + dy, z) := "wood"%string]> blocks)
  end.

(** The offsets [(dx, dy, dz)] of the three nested leaf loops. *)
Definition leaf_offsets : list (Z * Z * Z) :=
  flat_map (fun dx =>
    flat_map (fun dy => map (fun dz => (dx, dy, dz)) (range (-2) 3)) (range (-1) 2))
    (range (-2) 3).

(** The leaf loops; [i] counts the calls of [random.random()] made so far,
    which happen only where the distance test passes. *)
Fixpoint leaf_loop (x top_y z : Z) (draw : nat -> float) (offsets : list (Z * Z * Z))
  (i : nat) (blocks : gmap pos string) : result (gmap pos string) :=
  match offsets with
  | [] => Ret blocks
  | (dx, dy, dz) :: offsets' =>
      rbind (float_of_int (dx * dx + dy * dy + dz * dz)) (fun sq =>
      let dist := SFsqrt prec emax sq in
      if SFleb dist f2 then
        if SFltb f0_3 (draw i) then
          let p := (x + dx, top_y + dy, z + dz) in
          if negb (contains blocks p)
          then leaf_loop x top_y z draw offsets' (Datatypes.S i) (<[p := "leaves"%string]> blocks)
          else leaf_loop x top_y z draw offsets' (Datatypes.S i) blocks
        else leaf_loop x top_y z draw offsets' (Datatypes.S i) blocks
      else leaf_loop x top_y z draw offsets' i blocks)
  end.

(** [generate_tree(x, y, z)], as a function of the block map. *)
Definition generate_tree (draws : tree_draws) (x y z : Z) (blocks : gmap pos string)
  : result (gmap pos string) :=
  let blocks := trunk_loop x y z (range 0 (trunk_height draws)) blocks in
  let top_y := y + trunk_height draws in
  leaf_loop x top_y z (leaf_draw draws) leaf_offsets 0 blocks.

(** *** The player and the window *)
Record Player : Type := mkPlayer {
  position : vec3;
  rotation : float * float;
  velocity : vec3;
  on_ground : bool;
  flying : bool
}.

(** The fields of [StableCraftWindow] that are the game's own. *)
Record StableCraftWindow : Type := mkWindow {
  world : World;
  player : Player;
  strafe : Z * Z;
  mouse_locked : bool;
  selected_block : string
}.

Definition set_world (g : StableCraftWindow) (w : World) : StableCraftWindow :=
  mkWindow w (player g) (strafe g) (mouse_locked g) (selected_block g).

(** [on_mouse_press(x, y, button, modifiers)].  [direction] is what
    [get_view_vector] returns, computed with [math.cos] and [math.sin]. *)
Definition on_mouse_press (direction : vec3) (button : mouse.button)
  (g : StableCraftWindow) : result unit * StableCraftWindow :=
  if negb (mouse_locked g) then
    (Ret tt, mkWindow (world g) (player g) (strafe g) true (selected_block g))
  else
    match raycast (world g) (position (player g)) direction f10 with
    | Raise e => (Raise e, g)
    | Ret (hit_pos, adjacent_pos) =>
        match button, hit_pos, adjacent_pos with
        | mouse.LEFT, Some hit, _ =>
            let '(r, w') :=
              rebuild_batch (position (player g)) (remove_block hit (world g)) in
            (r, set_world g w')
        | mouse.RIGHT, _, Some adjacent =>
            let '(r, w') :=
              rebuild_batch (position (player g))
                (add_block adjacent (selected_block g) (world g)) in
            (r, set_world g w')
        | _, _, _ => (Ret tt, g)
        end
    end.

End StableDiffusion.

(** ** The words of the specification *)
Module Spec.

(** [isOccupied]: the position is present in the map. *)
Definition isOccupied (blocks : gmap pos string) (p : pos) : Prop :=
  is_Some (blocks !! p).

(** The six axis-aligned neighbours of a position. *)
Definition face_neighbors (p : pos) : list pos :=
  let '(x, y, z) := p in
  [ (x + 1, y, z); (x, y + 1, z); (x, y, z + 1);
    (x, y, z - 1); (x, y - 1, z); (x - 1, y, z) ].

(** At least one of the six neighbours is absent from the map. *)
Definition has_absent_neighbor (blocks : gmap pos string) (p : pos) : Prop :=
  exists n, In n (face_neighbors p) /\ blocks !! n = None.

(** [isExposed]: occupied, and at least one of the six neighbours absent. *)
Definition isExposed (blocks : gmap pos string) (p : pos) : Prop :=
  isOccupied blocks p /\ has_absent_neighbor blocks p.

(** All six neighbours are occupied. *)
Definition enclosed (blocks : gmap pos string) (p : pos) : Prop :=
  forall n, In n (face_neighbors p) -> isOccupied blocks n.

End Spec.

(** ** Callers *)

(** A mutation of the voxel map. *)
Inductive op : Type :=
| Add (p : pos) (block_type : string)
| Remove (p : pos).

Definition apply_op (o : op) : DeepSeek.M unit :=
  match o with
  | Add p block_type => DeepSeek.add_block p block_type
  | Remove p => DeepSeek.remove_block p
  end.

(** A caller that issues the operations one after the other on the same world
    and goes on after an exception: the outcomes, and the world left. *)
Fixpoint run_ops (ops : list op) (w : DeepSeek.World)
  : list (result unit) * DeepSeek.World :=
  match ops with
  | [] => ([], w)
  | o :: ops' =>
      let '(r, w') := apply_op o w in
      let '(rs, w'') := run_ops ops' w' in
      (r :: rs, w'')
  end.

(** The centre cell and its six neighbours, in the order of the
    specification's scenario. *)
Definition centre_and_neighbors : list op :=
  [ Add (0, 0, 0) "STONE"; Add (1, 0, 0) "STONE"; Add (0, 1, 0) "STONE";
    Add (0, 0, 1) "STONE"; Add (-1, 0, 0) "STONE"; Add (0, -1, 0) "STONE";
    Add (0, 0, -1) "STONE" ].

(** The position reached after [k] rounds of the march of [raycast]. *)
Fixpoint march (direction : DeepSeek.vec3) (k : nat) (current : DeepSeek.vec3)
  : DeepSeek.vec3 :=
  match k with
  | O => current
  | S k' => march direction k' (DeepSeek.advance direction current)
  end.

(** The map of the scenario: a centre cell and its six neighbours. *)
Definition surrounded_blocks : gmap pos string :=
  list_to_map
    [ ((0, 0, 0), "STONE"); ((1, 0, 0), "STONE"); ((0, 1, 0), "STONE");
      ((0, 0, 1), "STONE"); ((-1, 0, 0), "STONE"); ((0, -1, 0), "STONE");
      ((0, 0, -1), "STONE") ]%string.

(** A computation that does not write [blocks], whether it returns or raises. *)
Definition keeps_blocks {A} (c : DeepSeek.M A) : Prop :=
  forall w, DeepSeek.blocks (snd (c w)) = DeepSeek.blocks w.

(** A computation that adds no key to [visible_blocks], whether it returns or
    raises. *)
Definition shows_nothing {A} (c : DeepSeek.M A) : Prop :=
  forall w, DeepSeek.visible_blocks (snd (c w)) ⊆ DeepSeek.visible_blocks w.

(** A world of StableDiffusion.py holding grass at the origin. *)
Definition grass_world : StableDiffusion.World :=
  StableDiffusion.mkWorld {[ (0, 0, 0) := "grass"%string ]} ∅ new_batch.

(** Every position of the first [n] rounds of the march rounds to a cell, and
    that cell is free. *)
Definition unobstructed (blocks : gmap pos string) (direction start : DeepSeek.vec3)
  (n : nat) : Prop :=
  forall k, (k < n)%nat ->
    exists p, DeepSeek.round3 (march direction k start) = Ret p /\
              contains blocks p = false.

(** A direction of length zero; the sign of a float zero is free. *)
Definition zero_direction (s0 s1 s2 : bool) : DeepSeek.vec3 :=
  (S754_zero s0, S754_zero s1, S754_zero s2).

(** A map holding one stone block, at the origin. *)
Definition stone_at_origin : gmap pos string := {[ (0, 0, 0) := "STONE"%string ]}.

(** The block at [q] is within the render distance of the player. *)
Definition in_view (px pz : float) (q : pos) : Prop :=
  let '(x, _, z) := q in
  StableDiffusion.within_render_distance x z px pz = Ret true.

(** Every cell that [collide] looks at around [new_pos] exists and is free. *)
Definition scanned_cells_free (g : DeepSeek.GameWindow) (new_pos : DeepSeek.vec3) : Prop :=
  let '(px, py, pz) := new_pos in
  Forall (fun '(dx, dy, dz) =>
            exists c, DeepSeek.round3 (fadd px dx, fadd py dy, fadd pz dz) = Ret c /\
                      contains (DeepSeek.blocks (DeepSeek.world g)) c = false)
    DeepSeek.box_offsets.

(** [lo <= v <= hi] on floats. *)
Definition between (lo hi v : float) : Prop :=
  SFleb lo v = true /\ SFleb v hi = true.

(** [visible_blocks] holds exactly the occupied positions in view of the
    player at [(px, _, pz)] that [is_exposed] accepts. *)
Definition cache_exact (px pz : float) (w : StableDiffusion.World) : Prop :=
  forall q,
    contains (StableDiffusion.visible_blocks w) q = true <->
    contains (StableDiffusion.blocks w) q = true /\
    in_view px pz q /\
    StableDiffusion.is_exposed (StableDiffusion.blocks w) q = true.

(** Every coordinate of every block of the map converts to a float. *)
Definition coordinates_convert (blocks : gmap pos string) : Prop :=
  forall x y z, contains blocks (x, y, z) = true ->
    (exists fx, float_of_int x = Ret fx) /\
    (exists fy, float_of_int y = Ret fy) /\
    (exists fz, float_of_int z = Ret fz).

(** The exceptions a mutation of [World] ends with. *)
Definition mutation_error (e : exn) : Prop :=
  e = TypeError \/ e = ValueError \/ e = OverflowError.

(** An outcome that is a return or one of these exceptions. *)
Definition returns_or_raises (r : result unit) : Prop :=
  r = Ret tt \/ exists e, mutation_error e /\ r = Raise e.

(** A window of StableDiffusion.py: the player at the origin, the mouse locked,
    one stone block two cells ahead on the x axis. *)
Definition stone_ahead_window : StableDiffusion.StableCraftWindow :=
  StableDiffusion.mkWindow
    (StableDiffusion.mkWorld {[ (2, 0, 0) := "stone"%string ]} ∅ new_batch)
    (StableDiffusion.mkPlayer (f0, f0, f0) (f0, f0) (f0, f0, f0) false false)
    (0, 0) true "stone".

(** The distance test of the leaf loops of [generate_tree] passes at the
    offset [(dx, dy, dz)]. *)
Definition within_leaf_radius (offset : Z * Z * Z) : bool :=
  let '(dx, dy, dz) := offset in
  match float_of_int (dx * dx + dy * dy + dz * dz) with
  | Ret sq => SFleb (SFsqrt prec emax sq) f2
  | Raise _ => false
  end.

(** The cell [q] is one of the trunk cells of the tree at [(x, y, z)]. *)
Definition in_trunk (draws : StableDiffusion.tree_draws) (x y z : Z) (q : pos) : Prop :=
  exists dy, 0 <= dy < StableDiffusion.trunk_height draws /\ q = (x, y + dy, z).

(** The texture coordinates are 24 numbers between 0 and 1. *)
Definition texture_coords_ok (r : result (list float)) : bool :=
  match r with
  | Ret l => (length l =? 24)%nat && forallb (fun c => SFleb f0 c && SFleb c f1) l
  | Raise _ => false
  end.

(** * Properties *)

Section Dictionary.
Context {V : Type}.
Implicit Types (d : gmap pos V) (k : pos).

Lemma contains_true d k : contains d k = true <-> is_Some (d !! k).
Proof.
  unfold contains. destruct (d !! k) eqn:E; split; intros H; eauto.
  - discriminate.
  - destruct H as [? H]. discriminate.
Qed.

Lemma contains_false d k : contains d k = false <-> d !! k = None.
Proof.
  unfold contains. destruct (d !! k) eqn:E; split; intros H; congruence.
Qed.

Lemma contains_insert d k v : contains (<[k := v]> d) k = true.
Proof. apply contains_true. rewrite lookup_insert_eq. eauto. Qed.

Lemma contains_delete d k : contains (delete k d) k = false.
Proof. apply contains_false. apply lookup_delete_eq. Qed.

Lemma contains_empty k : contains (∅ : gmap pos V) k = false.
Proof. apply contains_false. apply lookup_empty. Qed.
End Dictionary.

(** ** Float literals *)

(** The constants of [Py] are the binary64 values of the Python literals. *)
Lemma literals_binary64 :
  Prim2SF 0x1.999999999999ap-4%float = f0_1 /\ Prim2SF 0%float = f0 /\
  Prim2SF 1%float = f1 /\ Prim2SF 2%float = f2 /\ Prim2SF 10%float = f10.
Proof. repeat split; vm_compute; reflexivity. Qed.

(** [round_half_even] is within one half of the exact value [m / 2^k], and
    picks the even integer on a tie. *)
Lemma round_half_even_nearest (m k : positive) :
  let d := 2 ^ Zpos k in
  let r := round_half_even m (Zneg k) in
  2 * Z.abs (r * d - Zpos m) <= d /\
  (2 * Z.abs (r * d - Zpos m) = d -> Z.even r = true).
Proof.
  cbv zeta. unfold round_half_even.
  assert (Hd : 0 < 2 ^ Zpos k) by (apply Z.pow_pos_nonneg; lia).
  set (d := 2 ^ Zpos k) in *.
  pose proof (Z.div_mod (Zpos m) d ltac:(lia)) as Hdm.
  pose proof (Z.mod_pos_bound (Zpos m) d Hd) as Hr.
  set (q := Zpos m / d) in *. set (r := Zpos m mod d) in *.
  destruct (Z.compare_spec (2 * r) d) as [He | Hl | Hg].
  - destruct (Z.even q) eqn:Ev.
    + split; [| auto]. replace (q * d - Zpos m) with (- r) by lia. lia.
    + split.
      * replace ((q + 1) * d - Zpos m) with (d - r) by lia. lia.
      * intros _. rewrite Z.even_add, Ev. reflexivity.
  - split.
    + replace (q * d - Zpos m) with (- r) by lia. lia.
    + replace (q * d - Zpos m) with (- r) by lia. lia.
  - split.
    + replace ((q + 1) * d - Zpos m) with (d - r) by lia. lia.
    + replace ((q + 1) * d - Zpos m) with (d - r) by lia. lia.
Qed.

(** [int(10 / 0.1)] is 100: the march has a hundred rounds by default. *)
Lemma default_rounds : py_int (fdiv f10 DeepSeek.step_size) = Ret 100.
Proof. vm_compute. reflexivity. Qed.

(** ** Exposure predicates *)

(** [is_block_at] is [isOccupied]. *)
Lemma is_block_at_occupied (w : DeepSeek.World) (p : pos) :
  DeepSeek.is_block_at w p = true <-> Spec.isOccupied (DeepSeek.blocks w) p.
Proof. apply contains_true. Qed.

(** [is_visible] written out: the six faces in order, then the seventh entry. *)
Lemma is_visible_unfold (blocks : gmap pos string) (x y z : Z) :
  DeepSeek.is_visible blocks (x, y, z) =
  if negb (contains blocks (x + 1, y, z)) then Ret true
  else if negb (contains blocks (x, y + 1, z)) then Ret true
  else if negb (contains blocks (x, y, z + 1)) then Ret true
  else if negb (contains blocks (x, y, z - 1)) then Ret true
  else if negb (contains blocks (x, y - 1, z)) then Ret true
  else if negb (contains blocks (x - 1, y, z)) then Ret true
  else Raise TypeError.
Proof.
  unfold DeepSeek.is_visible, DeepSeek.FACE_VECTORS. cbn.
  rewrite !Z.add_0_r.
  replace (x + -1) with (x - 1) by lia.
  replace (y + -1) with (y - 1) by lia.
  replace (z + -1) with (z - 1) by lia.
  reflexivity.
Qed.

Lemma is_exposed_unfold (blocks : gmap pos string) (x y z : Z) :
  StableDiffusion.is_exposed blocks (x, y, z) =
  if negb (contains blocks (x + 1, y, z)) then true
  else if negb (contains blocks (x - 1, y, z)) then true
  else if negb (contains blocks (x, y + 1, z)) then true
  else if negb (contains blocks (x, y - 1, z)) then true
  else if negb (contains blocks (x, y, z + 1)) then true
  else if negb (contains blocks (x, y, z - 1)) then true
  else false.
Proof. reflexivity. Qed.

Lemma has_absent_neighbor_cases (blocks : gmap pos string) (x y z : Z) :
  Spec.has_absent_neighbor blocks (x, y, z) <->
  contains blocks (x + 1, y, z) = false \/ contains blocks (x, y + 1, z) = false \/
  contains blocks (x, y, z + 1) = false \/ contains blocks (x, y, z - 1) = false \/
  contains blocks (x, y - 1, z) = false \/ contains blocks (x - 1, y, z) = false.
Proof.
  unfold Spec.has_absent_neighbor. cbn [Spec.face_neighbors In].
  rewrite !contains_false. split.
  - intros (n & Hn & Habs).
    repeat (destruct Hn as [<- | Hn]; [tauto |]). destruct Hn.
  - intros H.
    repeat (destruct H as [H | H]; [eexists; split; [| exact H]; tauto |]).
    eexists; split; [| exact H]; tauto.
Qed.

(** [is_visible] never returns [False]. *)
Lemma is_visible_not_false (blocks : gmap pos string) (p : pos) :
  DeepSeek.is_visible blocks p <> Ret false.
Proof.
  destruct p as [[x y] z]. rewrite is_visible_unfold.
  repeat (destruct (negb (contains blocks _)); [discriminate |]). discriminate.
Qed.

(** On an enclosed position [is_visible] runs into the seventh entry. *)
Lemma is_visible_enclosed (blocks : gmap pos string) (p : pos) :
  Spec.enclosed blocks p -> DeepSeek.is_visible blocks p = Raise TypeError.
Proof.
  destruct p as [[x y] z]. intros H. rewrite is_visible_unfold.
  assert (Hc : forall n, In n (Spec.face_neighbors (x, y, z)) -> contains blocks n = true).
  { intros n Hn. apply contains_true, H, Hn. }
  cbn [Spec.face_neighbors In] in Hc.
  rewrite !Hc by tauto. reflexivity.
Qed.

(** [is_exposed] returns [False] on an enclosed position. *)
Lemma is_exposed_enclosed (blocks : gmap pos string) (p : pos) :
  Spec.enclosed blocks p -> StableDiffusion.is_exposed blocks p = false.
Proof.
  destruct p as [[x y] z]. intros H. rewrite is_exposed_unfold.
  assert (Hc : forall n, In n (Spec.face_neighbors (x, y, z)) -> contains blocks n = true).
  { intros n Hn. apply contains_true, H, Hn. }
  cbn [Spec.face_neighbors In] in Hc.
  rewrite !Hc by tauto. reflexivity.
Qed.

(** C3, as amended: [is_visible] and [is_exposed] return [True] exactly when
    at least one of the six axis-aligned neighbours of the queried position is
    absent from the map, whether or not the position itself is occupied. *)
Theorem exposure_iff_absent_neighbor (blocks : gmap pos string) (p : pos) :
  (DeepSeek.is_visible blocks p = Ret true <-> Spec.has_absent_neighbor blocks p) /\
  (StableDiffusion.is_exposed blocks p = true <-> Spec.has_absent_neighbor blocks p).
Proof.
  destruct p as [[x y] z].
  rewrite is_visible_unfold, is_exposed_unfold, has_absent_neighbor_cases.
  destruct (contains blocks (x + 1, y, z)), (contains blocks (x, y + 1, z)),
    (contains blocks (x, y, z + 1)), (contains blocks (x, y, z - 1)),
    (contains blocks (x, y - 1, z)), (contains blocks (x - 1, y, z));
    cbn; split; split; intros H; try tauto; try discriminate;
    repeat (destruct H as [H | H]; try discriminate); discriminate.
Qed.

(** C3, as stated, fails on the empty map: the unoccupied origin is reported
    visible by both predicates. *)
Lemma exposure_ignores_occupancy :
  DeepSeek.is_visible ∅ (0, 0, 0) = Ret true /\
  StableDiffusion.is_exposed ∅ (0, 0, 0) = true /\
  ~ Spec.isExposed ∅ (0, 0, 0).
Proof.
  split; [reflexivity | split; [reflexivity |]].
  intros [[v Hv] _]. rewrite lookup_empty in Hv. discriminate.
Qed.

Lemma surrounded_blocks_enclosed : Spec.enclosed surrounded_blocks (0, 0, 0).
Proof.
  intros n Hn. cbn [Spec.face_neighbors In] in Hn.
  repeat (destruct Hn as [<- | Hn]; [vm_compute; eauto |]). destruct Hn.
Qed.

(** C6: on the centre of a fully surrounded cell [World.is_visible] raises
    [TypeError] instead of returning [False]; [is_exposed] of
    StableDiffusion.py returns [False] on the same map. *)
Theorem is_visible_surrounded_raises :
  Spec.enclosed surrounded_blocks (0, 0, 0) /\
  DeepSeek.is_visible surrounded_blocks (0, 0, 0) = Raise TypeError /\
  StableDiffusion.is_exposed surrounded_blocks (0, 0, 0) = false.
Proof.
  split; [exact surrounded_blocks_enclosed |].
  split; vm_compute; reflexivity.
Qed.

(** C2: adding a block to the empty world raises [ValueError], in
    [batch.add], after the block is stored; removing the block just added
    raises [TypeError], at the seventh entry of [FACE_VECTORS]. *)
Theorem add_block_raises :
  fst (DeepSeek.add_block (0, 0, 0) "GRASS" DeepSeek.empty_world) = Raise ValueError /\
  fst (DeepSeek.remove_block (0, 0, 0)
         (snd (DeepSeek.add_block (0, 0, 0) "GRASS" DeepSeek.empty_world)))
  = Raise TypeError.
Proof. split; vm_compute; reflexivity. Qed.

(** C1: adding one block to the empty world raises [ValueError] and leaves the
    block, which is occupied and exposed, out of [visible_blocks]; after the
    centre cell and its six neighbours are added, every call has raised
    [ValueError], the seven blocks are stored, the one at (1,0,0) is occupied
    and exposed, and [visible_blocks] is still empty. *)
Theorem exposure_cache_stays_empty :
  let first := DeepSeek.add_block (0, 0, 0) "STONE" DeepSeek.empty_world in
  let run := run_ops centre_and_neighbors DeepSeek.empty_world in
  fst first = Raise ValueError /\
  Spec.isExposed (DeepSeek.blocks (snd first)) (0, 0, 0) /\
  DeepSeek.visible_blocks (snd first) = ∅ /\
  fst run = repeat (Raise ValueError) 7 /\
  DeepSeek.blocks (snd run) = surrounded_blocks /\
  Spec.isExposed (DeepSeek.blocks (snd run)) (1, 0, 0) /\
  DeepSeek.visible_blocks (snd run) = ∅.
Proof.
  cbv zeta.
  split; [vm_compute; reflexivity |].
  split.
  { split; [vm_compute; eauto |].
    exists (1, 0, 0). split; [left; reflexivity | vm_compute; reflexivity]. }
  split; [vm_compute; reflexivity |].
  split; [vm_compute; reflexivity |].
  split; [vm_compute; reflexivity |].
  split; [| vm_compute; reflexivity].
  split; [vm_compute; eauto |].
  exists (2, 0, 0). split; [left; reflexivity | vm_compute; reflexivity].
Qed.

(** ** [make_visible] never stores a vertex list *)

Lemma float_of_int_raises (n : Z) (e : exn) :
  float_of_int n = Raise e -> e = OverflowError.
Proof.
  unfold float_of_int. destruct (binary_normalize prec emax n 0 false); congruence.
Qed.

(** [create_vertices] returns 84 coordinates, or raises [OverflowError] for a
    coordinate beyond the doubles. *)
Lemma create_vertices_outcome (x y z : Z) (n : float) :
  (exists l, DeepSeek.create_vertices x y z n = Ret l /\ length l = 84%nat) \/
  DeepSeek.create_vertices x y z n = Raise OverflowError.
Proof.
  unfold DeepSeek.create_vertices.
  destruct (float_of_int x) as [fx | e] eqn:Ex;
    [| right; cbn; f_equal; eapply float_of_int_raises; eassumption].
  destruct (float_of_int y) as [fy | e] eqn:Ey;
    [| right; cbn; f_equal; eapply float_of_int_raises; eassumption].
  destruct (float_of_int z) as [fz | e] eqn:Ez;
    [| right; cbn; f_equal; eapply float_of_int_raises; eassumption].
  left. eexists. split; reflexivity.
Qed.

Lemma BLOCK_checked :
  forallb (fun '(block_type, _) => texture_coords_ok (DeepSeek.get_texture_coords block_type))
    (map_to_list DeepSeek.BLOCK) = true.
Proof. vm_compute. reflexivity. Qed.

Lemma get_texture_coords_returns (block_type : string) :
  exists l, DeepSeek.get_texture_coords block_type = Ret l.
Proof.
  assert (H : texture_coords_ok (DeepSeek.get_texture_coords block_type) = true).
  { destruct (DeepSeek.BLOCK !! block_type) as [cells |] eqn:E.
    - pose proof BLOCK_checked as H. rewrite forallb_forall in H.
      apply elem_of_map_to_list, list_elem_of_In in E. exact (H _ E).
    - unfold DeepSeek.get_texture_coords. rewrite E. vm_compute. reflexivity. }
  destruct (DeepSeek.get_texture_coords block_type) as [l |]; [eauto | discriminate].
Qed.

(** The 84 coordinates of [create_vertices] never fit the 24 vertices asked
    of [batch.add]. *)
Lemma batch_add_vertices_misfit (b : Batch) (vertices tex_coords : list float) :
  length vertices = 84%nat ->
  batch_add b 24 [(3%nat, vertices); (2%nat, tex_coords)] = Raise ValueError.
Proof.
  intros H. unfold batch_add. cbn [forallb array_fits]. rewrite H. reflexivity.
Qed.

(** What [make_visible] does: it returns exactly when the position is already
    in [visible_blocks]; otherwise it raises [KeyError] at a free position,
    and [OverflowError] or [ValueError] at an occupied one; and it leaves the
    world as it was. *)
Lemma make_visible_run (p : pos) (w : DeepSeek.World) :
  snd (DeepSeek.make_visible p w) = w /\
  (contains (DeepSeek.visible_blocks w) p = true ->
   fst (DeepSeek.make_visible p w) = Ret tt) /\
  (contains (DeepSeek.visible_blocks w) p = false ->
   contains (DeepSeek.blocks w) p = false ->
   fst (DeepSeek.make_visible p w) = Raise KeyError) /\
  (contains (DeepSeek.visible_blocks w) p = false ->
   contains (DeepSeek.blocks w) p = true ->
   fst (DeepSeek.make_visible p w) = Raise ValueError \/
   fst (DeepSeek.make_visible p w) = Raise OverflowError).
Proof.
  unfold DeepSeek.make_visible.
  destruct (contains (DeepSeek.visible_blocks w) p) eqn:Ev.
  { repeat split; intros; congruence. }
  destruct (DeepSeek.blocks w !! p) as [t |] eqn:Eb.
  2: { apply contains_false in Eb. repeat split; intros; congruence. }
  assert (Hocc : contains (DeepSeek.blocks w) p = true)
    by (apply contains_true; eauto).
  destruct p as [[x y] z].
  destruct (create_vertices_outcome x y z DeepSeek.BLOCK_HALF_SIZE)
    as [(l & -> & Hl) | ->]; cbn [rbind].
  - destruct (get_texture_coords_returns t) as [tc ->]. cbn [rbind].
    rewrite (batch_add_vertices_misfit _ _ _ Hl).
    repeat split; intros; try congruence. left. reflexivity.
  - repeat split; intros; try congruence. right. reflexivity.
Qed.

(** ** What the methods of [World] leave in [blocks] *)

Section BlocksFrame.
Import DeepSeek.

Lemma keeps_blocks_ret {A} (a : A) : keeps_blocks (ret a).
Proof. intros w. reflexivity. Qed.

Lemma keeps_blocks_lift {A} (r : result A) : keeps_blocks (lift r).
Proof. intros w. reflexivity. Qed.

Lemma keeps_blocks_get : keeps_blocks get.
Proof. intros w. reflexivity. Qed.

Lemma keeps_blocks_bind {A B} (c : M A) (k : A -> M B) :
  keeps_blocks c -> (forall a, keeps_blocks (k a)) -> keeps_blocks (bind c k).
Proof.
  intros Hc Hk w. unfold bind. specialize (Hc w).
  destruct (c w) as [[a | e] w']; cbn in *.
  - rewrite Hk. exact Hc.
  - exact Hc.
Qed.

Lemma keeps_blocks_if {A} (b : bool) (c1 c2 : M A) :
  keeps_blocks c1 -> keeps_blocks c2 -> keeps_blocks (if b then c1 else c2).
Proof. destruct b; auto. Qed.

Lemma keeps_blocks_make_visible p : keeps_blocks (make_visible p).
Proof.
  intros w. destruct (make_visible_run p w) as [-> _]. reflexivity.
Qed.

Lemma keeps_blocks_make_hidden p : keeps_blocks (make_hidden p).
Proof.
  intros w. unfold make_hidden. destruct (visible_blocks w !! p); reflexivity.
Qed.

Lemma keeps_blocks_for_each {A} (l : list A) (body : A -> M unit) :
  (forall a, keeps_blocks (body a)) -> keeps_blocks (for_each l body).
Proof.
  intros Hbody. induction l as [| a l IH]; cbn [for_each].
  - apply keeps_blocks_ret.
  - apply keeps_blocks_bind; auto.
Qed.

Create HintDb frame.
Hint Resolve keeps_blocks_ret keeps_blocks_lift keeps_blocks_get
  keeps_blocks_make_visible keeps_blocks_make_hidden : frame.

Ltac frame :=
  repeat first
    [ apply keeps_blocks_bind; [| intros ?]
    | apply keeps_blocks_if
    | apply keeps_blocks_for_each; intros ?
    | solve [auto with frame] ].

Lemma keeps_blocks_add_block_neighbor p v : keeps_blocks (add_block_neighbor p v).
Proof. unfold add_block_neighbor. frame. Qed.

Lemma keeps_blocks_remove_block_neighbor p v :
  keeps_blocks (remove_block_neighbor p v).
Proof. unfold remove_block_neighbor. frame. Qed.

(** [add_block] writes [blocks] once, and only at a free position. *)
Lemma add_block_blocks p block_type w :
  blocks (snd (add_block p block_type w)) =
  if contains (blocks w) p then blocks w else <[p := block_type]> (blocks w).
Proof.
  unfold add_block. unfold bind at 1. cbn [get].
  destruct (contains (blocks w) p); [reflexivity |].
  unfold bind at 1. cbn [set_block].
  match goal with |- blocks (snd (?c ?w')) = _ =>
    assert (H : keeps_blocks c); [| rewrite (H w'); reflexivity] end.
  frame.
Qed.

(** [remove_block] deletes the key, and writes [blocks] nowhere else. *)
Lemma remove_block_blocks p w :
  blocks (snd (remove_block p w)) =
  if contains (blocks w) p then delete p (blocks w) else blocks w.
Proof.
  unfold remove_block. unfold bind at 1. cbn [get].
  destruct (contains (blocks w) p); [| reflexivity].
  unfold bind at 1. cbn [del_block].
  match goal with |- blocks (snd (?c ?w')) = _ =>
    assert (H : keeps_blocks c); [| rewrite (H w'); reflexivity] end.
  frame.
Qed.

End BlocksFrame.

(** ** No mutation of [World] completes *)

Section SeventhEntry.
Import DeepSeek.

Lemma offset_raises (p : pos) (v : face_vector) (e : exn) :
  offset p v = Raise e -> e = TypeError.
Proof.
  destruct p as [[x y] z], v as [[[dx | tx] [dy | ty]] [dz | tz]]; cbn;
    intros H; congruence.
Qed.

Lemma is_visible_outcome (m : gmap pos string) (p : pos) :
  is_visible m p = Ret true \/ is_visible m p = Raise TypeError.
Proof.
  destruct p as [[x y] z]. rewrite is_visible_unfold.
  repeat (destruct (negb (contains m _)); [left; reflexivity |]).
  right. reflexivity.
Qed.

Lemma make_hidden_returns (p : pos) (w : World) : fst (make_hidden p w) = Ret tt.
Proof. unfold make_hidden. destruct (visible_blocks w !! p); reflexivity. Qed.

Lemma make_visible_occupied_outcome (p : pos) (w : World) :
  contains (blocks w) p = true -> returns_or_raises (fst (make_visible p w)).
Proof.
  intros Hocc. destruct (make_visible_run p w) as (_ & Hvis & _ & Hnew).
  destruct (contains (visible_blocks w) p); [left; auto |].
  right. destruct (Hnew eq_refl Hocc) as [-> | ->]; eexists; (split; [| reflexivity]);
    unfold mutation_error; auto.
Qed.

(** A round of either neighbour loop returns or raises one of the three. *)
Lemma add_block_neighbor_outcome (p : pos) (v : face_vector) (w : World) :
  returns_or_raises (fst (add_block_neighbor p v w)).
Proof.
  assert (Hte : returns_or_raises (Raise TypeError)).
  { right. exists TypeError. split; [left |]; reflexivity. }
  unfold add_block_neighbor, bind, lift, get.
  destruct (offset p v) as [n | e] eqn:Eo.
  2: { apply offset_raises in Eo. subst e. exact Hte. }
  destruct (contains (blocks w) n) eqn:Eb; cbn [andb]; [| left; reflexivity].
  destruct (contains (visible_blocks w) n) eqn:Ev; cbn [negb];
    destruct (is_visible_outcome (blocks w) n) as [-> | ->]; cbn [negb];
    try exact Hte; try (left; reflexivity).
  apply make_visible_occupied_outcome, Eb.
Qed.

Lemma remove_block_neighbor_outcome (p : pos) (v : face_vector) (w : World) :
  returns_or_raises (fst (remove_block_neighbor p v w)).
Proof.
  assert (Hte : returns_or_raises (Raise TypeError)).
  { right. exists TypeError. split; [left |]; reflexivity. }
  unfold remove_block_neighbor, bind, lift, get.
  destruct (offset p v) as [n | e] eqn:Eo.
  2: { apply offset_raises in Eo. subst e. exact Hte. }
  destruct (contains (blocks w) n) eqn:Eb; cbn [andb]; [| left; reflexivity].
  destruct (contains (visible_blocks w) n) eqn:Ev; cbn [negb]; [left; reflexivity |].
  destruct (is_visible_outcome (blocks w) n) as [-> | ->];
    try exact Hte.
  apply make_visible_occupied_outcome, Eb.
Qed.

(** A loop whose rounds return or raise, and whose last round raises
    [TypeError], raises. *)
Lemma for_each_last_raises {A} (body : A -> M unit) (last : A) (l : list A) :
  (forall a w, returns_or_raises (fst (body a w))) ->
  (forall w, fst (body last w) = Raise TypeError) ->
  forall w, exists e,
    mutation_error e /\ fst (for_each (l ++ [last]) body w) = Raise e.
Proof.
  intros Hbody Hlast. induction l as [| a l IH]; intros w; cbn [app for_each].
  - unfold bind. specialize (Hlast w). destruct (body last w) as [[[] | e] w'];
      cbn in *; [discriminate |]. injection Hlast as ->.
    exists TypeError. split; [left |]; reflexivity.
  - unfold bind. destruct (Hbody a w) as [H | (e & He & H)];
      destruct (body a w) as [[[] | e'] w']; cbn in H; try discriminate.
    + apply IH.
    + injection H as ->. exists e. split; [exact He | reflexivity].
Qed.

Lemma add_block_loop_raises (p : pos) (w : World) :
  exists e, mutation_error e /\
            fst (for_each FACE_VECTORS (add_block_neighbor p) w) = Raise e.
Proof.
  change FACE_VECTORS with
    (firstn 6 FACE_VECTORS ++ [(CTuple (1, 1, 1), CTuple (1, -1, 1), CTuple (-1, 1, -1))]).
  apply for_each_last_raises.
  - apply add_block_neighbor_outcome.
  - intros w'. destruct p as [[x y] z]. reflexivity.
Qed.

Lemma remove_block_loop_raises (p : pos) (w : World) :
  exists e, mutation_error e /\
            fst (for_each FACE_VECTORS (remove_block_neighbor p) w) = Raise e.
Proof.
  change FACE_VECTORS with
    (firstn 6 FACE_VECTORS ++ [(CTuple (1, 1, 1), CTuple (1, -1, 1), CTuple (-1, 1, -1))]).
  apply for_each_last_raises.
  - apply remove_block_neighbor_outcome.
  - intros w'. destruct p as [[x y] z]. reflexivity.
Qed.

(** [add_block] at a free position never completes. *)
Lemma add_block_free_raises (p : pos) (block_type : string) (w : World) :
  contains (blocks w) p = false ->
  exists e, mutation_error e /\ fst (add_block p block_type w) = Raise e.
Proof.
  intros Hfree. unfold add_block. unfold bind at 1. cbn [get]. rewrite Hfree.
  unfold bind at 1. cbn [set_block]. unfold bind at 1. cbn [get].
  unfold bind at 1. cbn [lift blocks].
  destruct (is_visible_outcome (<[p := block_type]> (blocks w)) p) as [-> | ->].
  2: { exists TypeError. split; [left |]; reflexivity. }
  unfold bind.
  match goal with |- context [make_visible p ?w1] =>
    pose proof (make_visible_occupied_outcome p w1 (contains_insert _ _ _)) as Hv;
    destruct (make_visible p w1) as [[[] | e] w2]; cbn [fst] in Hv
  end.
  - apply add_block_loop_raises.
  - destruct Hv as [Hv | (e' & He & Hv)]; [discriminate |]. injection Hv as ->.
    exists e'. split; [exact He | reflexivity].
Qed.

(** [remove_block] at an occupied position never completes. *)
Lemma remove_block_occupied_raises (p : pos) (w : World) :
  contains (blocks w) p = true ->
  exists e, mutation_error e /\ fst (remove_block p w) = Raise e.
Proof.
  intros Hocc. unfold remove_block. unfold bind at 1. cbn [get]. rewrite Hocc.
  unfold bind at 1. cbn [del_block]. unfold bind at 1. cbn [get].
  unfold bind. cbn [visible_blocks].
  destruct (contains (visible_blocks w) p).
  - match goal with |- context [make_hidden p ?w1] =>
      pose proof (make_hidden_returns p w1) as Hh;
      destruct (make_hidden p w1) as [[[] | e] w2]; cbn in Hh; try congruence
    end.
    apply remove_block_loop_raises.
  - cbn [ret]. apply remove_block_loop_raises.
Qed.

End SeventhEntry.

(** ** Adding at an occupied position, removing at a free one *)

(** C4, as amended: [World.add_block] at an occupied position returns with the
    world unchanged, the stored type included, and a second [add_block] of the
    same block leaves the world as the first one left it.
    [StableDiffusionWorld.add_block] stores the new type whatever was there,
    touches neither [visible_blocks] nor the batch, and a second call with the
    same block changes nothing more. *)
Theorem add_block_occupied
  (w : DeepSeek.World) (sw : StableDiffusion.World) (p : pos) (block_type : string) :
  (contains (DeepSeek.blocks w) p = true ->
   DeepSeek.add_block p block_type w = (Ret tt, w)) /\
  (let w1 := snd (DeepSeek.add_block p block_type w) in
   DeepSeek.add_block p block_type w1 = (Ret tt, w1)) /\
  (StableDiffusion.blocks (StableDiffusion.add_block p block_type sw)
     = <[p := block_type]> (StableDiffusion.blocks sw) /\
   StableDiffusion.visible_blocks (StableDiffusion.add_block p block_type sw)
     = StableDiffusion.visible_blocks sw) /\
  StableDiffusion.add_block p block_type (StableDiffusion.add_block p block_type sw)
    = StableDiffusion.add_block p block_type sw.
Proof.
  assert (Hocc : forall w', contains (DeepSeek.blocks w') p = true ->
                            DeepSeek.add_block p block_type w' = (Ret tt, w')).
  { intros w' H. unfold DeepSeek.add_block, DeepSeek.bind, DeepSeek.get.
    rewrite H. reflexivity. }
  split; [apply Hocc |].
  split.
  - cbv zeta. apply Hocc. rewrite add_block_blocks.
    destruct (contains (DeepSeek.blocks w) p) eqn:E; [exact E |].
    apply contains_insert.
  - split; [split; reflexivity |].
    unfold StableDiffusion.add_block. cbn. rewrite insert_insert_eq. reflexivity.
Qed.

Lemma add_block_occupied_witness :
  DeepSeek.add_block (0, 0, 0) "BRICK"
    (DeepSeek.mkWorld new_batch {[ (0, 0, 0) := "GRASS"%string ]} ∅)
  = (Ret tt, DeepSeek.mkWorld new_batch {[ (0, 0, 0) := "GRASS"%string ]} ∅).
Proof.
  apply (add_block_occupied
           (DeepSeek.mkWorld new_batch {[ (0, 0, 0) := "GRASS"%string ]} ∅)
           grass_world (0, 0, 0) "BRICK").
  vm_compute. reflexivity.
Defined.

(** C4, as stated, fails for [StableDiffusionWorld.add_block]: on a world
    holding grass at the origin, adding stone there replaces the grass. *)
Lemma stable_add_block_overwrites :
  contains (StableDiffusion.blocks grass_world) (0, 0, 0) = true /\
  StableDiffusion.blocks grass_world !! (0, 0, 0) = Some "grass"%string /\
  StableDiffusion.blocks (StableDiffusion.add_block (0, 0, 0) "stone" grass_world)
    !! (0, 0, 0) = Some "stone"%string /\
  StableDiffusion.blocks (StableDiffusion.add_block (0, 0, 0) "stone" grass_world)
    <> StableDiffusion.blocks grass_world.
Proof.
  split; [reflexivity |]. split; [reflexivity |]. split; [reflexivity |].
  intros H. apply (f_equal (fun m => m !! (0, 0, 0))) in H. vm_compute in H.
  discriminate.
Qed.

(** C5: [remove_block] at a free position returns with the world unchanged, in
    both programs, and a second [remove_block] of the same position leaves the
    world as the first one left it. *)
Theorem remove_block_unoccupied
  (w : DeepSeek.World) (sw : StableDiffusion.World) (p : pos) :
  (contains (DeepSeek.blocks w) p = false ->
   DeepSeek.remove_block p w = (Ret tt, w)) /\
  (let w1 := snd (DeepSeek.remove_block p w) in
   DeepSeek.remove_block p w1 = (Ret tt, w1)) /\
  (contains (StableDiffusion.blocks sw) p = false ->
   StableDiffusion.remove_block p sw = sw) /\
  StableDiffusion.remove_block p (StableDiffusion.remove_block p sw)
    = StableDiffusion.remove_block p sw.
Proof.
  assert (Hfree : forall w', contains (DeepSeek.blocks w') p = false ->
                             DeepSeek.remove_block p w' = (Ret tt, w')).
  { intros w' H. unfold DeepSeek.remove_block, DeepSeek.bind, DeepSeek.get.
    rewrite H. reflexivity. }
  assert (Hsfree : forall sw', contains (StableDiffusion.blocks sw') p = false ->
                               StableDiffusion.remove_block p sw' = sw').
  { intros sw' H. unfold StableDiffusion.remove_block. rewrite H. reflexivity. }
  split; [apply Hfree |].
  split.
  - cbv zeta. apply Hfree. rewrite remove_block_blocks.
    destruct (contains (DeepSeek.blocks w) p) eqn:E; [| exact E].
    apply contains_delete.
  - split; [apply Hsfree |].
    apply Hsfree. unfold StableDiffusion.remove_block.
    destruct (contains (StableDiffusion.blocks sw) p) eqn:E; [| exact E].
    apply contains_delete.
Qed.

Lemma remove_block_unoccupied_witness :
  DeepSeek.remove_block (0, 0, 0) DeepSeek.empty_world = (Ret tt, DeepSeek.empty_world) /\
  StableDiffusion.remove_block (1, 0, 0) grass_world = grass_world.
Proof.
  destruct (remove_block_unoccupied DeepSeek.empty_world grass_world (0, 0, 0))
    as (H1 & _ & _ & _).
  destruct (remove_block_unoccupied DeepSeek.empty_world grass_world (1, 0, 0))
    as (_ & _ & H3 & _).
  split; [apply H1 | apply H3]; vm_compute; reflexivity.
Defined.

(** ** Ray picking *)

(** The two [raycast] methods are the same function of the block map. *)
Lemma stable_raycast_eq (sw : StableDiffusion.World) (w : DeepSeek.World)
  (start direction : DeepSeek.vec3) (max_distance : float) :
  StableDiffusion.blocks sw = DeepSeek.blocks w ->
  StableDiffusion.raycast sw start direction max_distance
  = DeepSeek.raycast w start direction max_distance.
Proof.
  intros H. unfold StableDiffusion.raycast, DeepSeek.raycast. rewrite H.
  reflexivity.
Qed.

(** C7: with a single block at (2,0,0), the ray from (0,0,0) along (1,0,0)
    with maximum distance 10 hits (2,0,0), and the cell before it is
    (1,0,0); in both programs. *)
Theorem raycast_single_block (block_type : string)
  (b : Batch) (vis : gmap pos VertexList) :
  DeepSeek.raycast (DeepSeek.mkWorld b {[ (2, 0, 0) := block_type ]} vis)
    (f0, f0, f0) (f1, f0, f0) f10
  = Ret (Some (2, 0, 0), Some (1, 0, 0)) /\
  StableDiffusion.raycast (StableDiffusion.mkWorld {[ (2, 0, 0) := block_type ]} vis b)
    (f0, f0, f0) (f1, f0, f0) f10
  = Ret (Some (2, 0, 0), Some (1, 0, 0)).
Proof. split; vm_compute; reflexivity. Qed.

Lemma raycast_loop_unobstructed (blocks : gmap pos string)
  (direction : DeepSeek.vec3) (n : nat) :
  forall current,
    unobstructed blocks direction current n ->
    DeepSeek.raycast_loop blocks direction n current = Ret (None, None).
Proof.
  induction n as [| n IH]; intros current H; [reflexivity |].
  cbn [DeepSeek.raycast_loop].
  destruct (H 0%nat) as (p & Hp & Hfree); [lia |].
  cbn [march] in Hp. rewrite Hp. cbn [rbind]. rewrite Hfree.
  apply IH. intros k Hk. apply (H (S k)). lia.
Qed.

(** C8, as amended: when the number of rounds [int(max_distance / 0.1)] is
    defined and every position marched in those rounds rounds to a cell that
    is free, [raycast] returns [(None, None)]; in both programs. *)
Theorem raycast_no_hit (w : DeepSeek.World) (sw : StableDiffusion.World)
  (start direction : DeepSeek.vec3) (max_distance : float) (n : Z) :
  py_int (fdiv max_distance DeepSeek.step_size) = Ret n ->
  (unobstructed (DeepSeek.blocks w) direction start (Z.to_nat n) ->
   DeepSeek.raycast w start direction max_distance = Ret (None, None)) /\
  (unobstructed (StableDiffusion.blocks sw) direction start (Z.to_nat n) ->
   StableDiffusion.raycast sw start direction max_distance = Ret (None, None)).
Proof.
  intros Hn. split; intros H.
  - unfold DeepSeek.raycast. rewrite Hn. cbn [rbind].
    apply raycast_loop_unobstructed, H.
  - rewrite (stable_raycast_eq sw
               (DeepSeek.mkWorld new_batch (StableDiffusion.blocks sw) ∅)) by reflexivity.
    unfold DeepSeek.raycast. rewrite Hn. cbn [rbind].
    apply raycast_loop_unobstructed, H.
Qed.

Lemma unobstructed_one_unit :
  unobstructed {[ (2, 0, 0) := "STONE"%string ]} (f1, f0, f0) (f0, f0, f0) (Z.to_nat 10).
Proof.
  intros k Hk.
  do 10 (destruct k as [| k];
         [eexists; split; vm_compute; reflexivity |]).
  cbn in Hk. lia.
Defined.

Lemma raycast_no_hit_witness :
  DeepSeek.raycast (DeepSeek.mkWorld new_batch {[ (2, 0, 0) := "STONE"%string ]} ∅)
    (f0, f0, f0) (f1, f0, f0) f1 = Ret (None, None) /\
  StableDiffusion.raycast
    (StableDiffusion.mkWorld {[ (2, 0, 0) := "STONE"%string ]} ∅ new_batch)
    (f0, f0, f0) (f1, f0, f0) f1 = Ret (None, None).
Proof.
  assert (Hn : py_int (fdiv f1 DeepSeek.step_size) = Ret 10) by (vm_compute; reflexivity).
  destruct (raycast_no_hit
              (DeepSeek.mkWorld new_batch {[ (2, 0, 0) := "STONE"%string ]} ∅)
              (StableDiffusion.mkWorld {[ (2, 0, 0) := "STONE"%string ]} ∅ new_batch)
              (f0, f0, f0) (f1, f0, f0) f1 10 Hn) as [H1 H2].
  split; [apply H1 | apply H2]; exact unobstructed_one_unit.
Defined.

(** C8, as stated, fails on the empty map, where no position is occupied: the
    ray from an origin whose first coordinate is not a number raises
    [ValueError] at [round], and the ray with an infinite maximum distance
    raises [OverflowError] at [int(max_distance / 0.1)]; in both programs. *)
Lemma raycast_no_hit_raises :
  (forall p : pos, contains (DeepSeek.blocks DeepSeek.empty_world) p = false) /\
  (forall p : pos, contains (StableDiffusion.blocks StableDiffusion.empty_world) p = false) /\
  DeepSeek.raycast DeepSeek.empty_world (S754_nan, f0, f0) (f1, f0, f0) f10
  = Raise ValueError /\
  DeepSeek.raycast DeepSeek.empty_world (f0, f0, f0) (f1, f0, f0) (S754_infinity false)
  = Raise OverflowError /\
  StableDiffusion.raycast StableDiffusion.empty_world (S754_nan, f0, f0) (f1, f0, f0) f10
  = Raise ValueError /\
  StableDiffusion.raycast StableDiffusion.empty_world (f0, f0, f0) (f1, f0, f0)
    (S754_infinity false)
  = Raise OverflowError.
Proof.
  split; [intros p; apply contains_empty |].
  split; [intros p; apply contains_empty |].
  repeat split; vm_compute; reflexivity.
Qed.

(** *** A direction of length zero *)

Lemma fmul_zero_step (s : bool) : fmul (S754_zero s) f0_1 = S754_zero s.
Proof. destruct s; reflexivity. Qed.

Lemma py_round_fadd_zero (x : float) (s : bool) :
  py_round (fadd x (S754_zero s)) = py_round x.
Proof. destruct x as [sx | sx | | sx m e], s; try destruct sx; reflexivity. Qed.

Lemma py_round_fsub_zero (x : float) (s : bool) :
  py_round (fsub x (S754_zero s)) = py_round x.
Proof. destruct x as [sx | sx | | sx m e], s; try destruct sx; reflexivity. Qed.

Lemma round3_advance_zero (s0 s1 s2 : bool) (c : DeepSeek.vec3) :
  DeepSeek.round3 (DeepSeek.advance (zero_direction s0 s1 s2) c) = DeepSeek.round3 c.
Proof.
  destruct c as [[c0 c1] c2]. unfold DeepSeek.advance, zero_direction, DeepSeek.step_size.
  rewrite !fmul_zero_step. unfold DeepSeek.round3.
  rewrite !py_round_fadd_zero. reflexivity.
Qed.

Lemma round3_retreat_zero (s0 s1 s2 : bool) (c : DeepSeek.vec3) :
  DeepSeek.round3 (DeepSeek.retreat (zero_direction s0 s1 s2) c) = DeepSeek.round3 c.
Proof.
  destruct c as [[c0 c1] c2]. unfold DeepSeek.retreat, zero_direction, DeepSeek.step_size.
  rewrite !fmul_zero_step. unfold DeepSeek.round3.
  rewrite !py_round_fsub_zero. reflexivity.
Qed.

Lemma raycast_loop_zero_free (blocks : gmap pos string) (s0 s1 s2 : bool)
  (p : pos) (n : nat) :
  contains blocks p = false ->
  forall current,
    DeepSeek.round3 current = Ret p ->
    DeepSeek.raycast_loop blocks (zero_direction s0 s1 s2) n current = Ret (None, None).
Proof.
  intros Hfree. induction n as [| n IH]; intros current Hp; [reflexivity |].
  cbn [DeepSeek.raycast_loop]. rewrite Hp. cbn [rbind]. rewrite Hfree.
  apply IH. rewrite round3_advance_zero. exact Hp.
Qed.

Lemma raycast_loop_zero_occupied (blocks : gmap pos string) (s0 s1 s2 : bool)
  (p : pos) (n : nat) (current : DeepSeek.vec3) :
  contains blocks p = true ->
  DeepSeek.round3 current = Ret p ->
  DeepSeek.raycast_loop blocks (zero_direction s0 s1 s2) (S n) current
  = Ret (Some p, Some p).
Proof.
  intros Hocc Hp. cbn [DeepSeek.raycast_loop]. rewrite Hp. cbn [rbind].
  rewrite Hocc, round3_retreat_zero, Hp. reflexivity.
Qed.

(** C9, as amended: with a direction of length zero, a maximum distance for
    which the number of rounds [n = int(max_distance / 0.1)] is defined, and
    an origin that rounds to the cell [p], [raycast] returns [(None, None)]
    when [p] is free, and [(p, p)] when [p] is occupied and [n] is positive;
    in both programs. *)
Theorem raycast_zero_direction (w : DeepSeek.World) (sw : StableDiffusion.World)
  (start : DeepSeek.vec3) (s0 s1 s2 : bool) (max_distance : float) (n : Z) (p : pos) :
  py_int (fdiv max_distance DeepSeek.step_size) = Ret n ->
  DeepSeek.round3 start = Ret p ->
  (contains (DeepSeek.blocks w) p = false ->
   DeepSeek.raycast w start (zero_direction s0 s1 s2) max_distance = Ret (None, None)) /\
  (contains (DeepSeek.blocks w) p = true -> 0 < n ->
   DeepSeek.raycast w start (zero_direction s0 s1 s2) max_distance
   = Ret (Some p, Some p)) /\
  (contains (StableDiffusion.blocks sw) p = false ->
   StableDiffusion.raycast sw start (zero_direction s0 s1 s2) max_distance
   = Ret (None, None)) /\
  (contains (StableDiffusion.blocks sw) p = true -> 0 < n ->
   StableDiffusion.raycast sw start (zero_direction s0 s1 s2) max_distance
   = Ret (Some p, Some p)).
Proof.
  intros Hn Hp.
  assert (Hfree : forall blocks, contains blocks p = false ->
    rbind (py_int (fdiv max_distance DeepSeek.step_size)) (fun n =>
      DeepSeek.raycast_loop blocks (zero_direction s0 s1 s2) (Z.to_nat n) start)
    = Ret (None, None)).
  { intros blocks H. rewrite Hn. cbn [rbind].
    apply (raycast_loop_zero_free blocks s0 s1 s2 p); assumption. }
  assert (Hocc : forall blocks, contains blocks p = true -> 0 < n ->
    rbind (py_int (fdiv max_distance DeepSeek.step_size)) (fun n =>
      DeepSeek.raycast_loop blocks (zero_direction s0 s1 s2) (Z.to_nat n) start)
    = Ret (Some p, Some p)).
  { intros blocks H Hpos. rewrite Hn. cbn [rbind].
    destruct (Z.to_nat n) as [| m] eqn:E; [lia |].
    apply raycast_loop_zero_occupied; assumption. }
  repeat split; intros; first [apply Hfree | apply Hocc]; assumption.
Qed.

Lemma raycast_zero_direction_witness :
  DeepSeek.raycast DeepSeek.empty_world (f0, f0, f0) (zero_direction false false false) f10
  = Ret (None, None) /\
  DeepSeek.raycast (DeepSeek.mkWorld new_batch stone_at_origin ∅)
    (f0, f0, f0) (zero_direction false false false) f10
  = Ret (Some (0, 0, 0), Some (0, 0, 0)).
Proof.
  assert (Hn : py_int (fdiv f10 DeepSeek.step_size) = Ret 100) by (vm_compute; reflexivity).
  assert (Hp : DeepSeek.round3 (f0, f0, f0) = Ret (0, 0, 0)) by reflexivity.
  split.
  - apply (raycast_zero_direction DeepSeek.empty_world StableDiffusion.empty_world
             (f0, f0, f0) false false false f10 100 (0, 0, 0) Hn Hp).
    reflexivity.
  - apply (raycast_zero_direction (DeepSeek.mkWorld new_batch stone_at_origin ∅)
             StableDiffusion.empty_world
             (f0, f0, f0) false false false f10 100 (0, 0, 0) Hn Hp).
    + reflexivity.
    + lia.
Defined.

(** C9, as stated, fails when the origin lies in an occupied cell: the ray with
    direction (0,0,0) from (0,0,0) reports the block at the origin as hit. *)
Lemma raycast_zero_direction_hits_origin :
  DeepSeek.raycast (DeepSeek.mkWorld new_batch stone_at_origin ∅)
    (f0, f0, f0) (f0, f0, f0) f10
  = Ret (Some (0, 0, 0), Some (0, 0, 0)) /\
  DeepSeek.raycast (DeepSeek.mkWorld new_batch stone_at_origin ∅)
    (f0, f0, f0) (f0, f0, f0) f10
  <> Ret (None, None) /\
  StableDiffusion.raycast (StableDiffusion.mkWorld stone_at_origin ∅ new_batch)
    (f0, f0, f0) (f0, f0, f0) f10
  <> Ret (None, None).
Proof.
  split; [vm_compute; reflexivity |].
  split; vm_compute; discriminate.
Qed.

(** ** The exposure cache of [StableDiffusionWorld] *)

Lemma contains_insert_iff {V} (d : gmap pos V) (k q : pos) (v : V) :
  contains (<[k := v]> d) q = true <-> q = k \/ contains d q = true.
Proof.
  rewrite !contains_true. destruct (decide (k = q)) as [-> | Hne].
  - rewrite lookup_insert_eq. split; eauto.
  - rewrite lookup_insert_ne by exact Hne. split; [tauto |].
    intros [-> | H]; [contradiction | exact H].
Qed.

Lemma rebuild_loop_returns (blocks : gmap pos string) (px pz : float)
  (items : list (pos * string)) :
  forall vis b vis' b',
    StableDiffusion.rebuild_loop blocks px pz items vis b = (Ret tt, (vis', b')) ->
    forall q,
      contains vis' q = true <->
      contains vis q = true \/
      ((exists block_type, In (q, block_type) items) /\
       in_view px pz q /\ StableDiffusion.is_exposed blocks q = true).
Proof.
  induction items as [| [[[x y] z] block_type] items IH]; intros vis b vis' b' H q.
  - cbn in H. injection H as <- <-. split; [tauto |].
    intros [H | [[t []] _]]. exact H.
  - cbn [StableDiffusion.rebuild_loop] in H.
    destruct (StableDiffusion.within_render_distance x z px pz) as [[|] | e] eqn:Ev;
      [| | discriminate].
    + destruct (StableDiffusion.is_exposed blocks (x, y, z)) eqn:Ex.
      * destruct (rbind (StableDiffusion.create_cube_vertices x y z block_type) _)
          as [[vl b1] | e]; [| discriminate].
        apply IH with (q := q) in H. rewrite H.
        rewrite contains_insert_iff. split.
        -- intros [[-> | Hq] | ([t Hin] & Hv & He)].
           ++ right. split; [exists block_type; left; reflexivity |]. split; assumption.
           ++ left. exact Hq.
           ++ right. split; [exists t; right; exact Hin |]. split; assumption.
        -- intros [Hq | ([t [Heq | Hin]] & Hv & He)].
           ++ left. right. exact Hq.
           ++ injection Heq as <- _. left. left. reflexivity.
           ++ right. split; [exists t; exact Hin |]. split; assumption.
      * apply IH with (q := q) in H. rewrite H. split.
        -- intros [Hq | ([t Hin] & Hv & He)]; [left; exact Hq |].
           right. split; [exists t; right; exact Hin |]. split; assumption.
        -- intros [Hq | ([t [Heq | Hin]] & Hv & He)]; [left; exact Hq | |].
           ++ injection Heq as <- _. congruence.
           ++ right. split; [exists t; exact Hin |]. split; assumption.
    + apply IH with (q := q) in H. rewrite H. split.
      * intros [Hq | ([t Hin] & Hv & He)]; [left; exact Hq |].
        right. split; [exists t; right; exact Hin |]. split; assumption.
      * intros [Hq | ([t [Heq | Hin]] & Hv & He)]; [left; exact Hq | |].
        -- injection Heq as <- _. unfold in_view in Hv. congruence.
        -- right. split; [exists t; exact Hin |]. split; assumption.
Qed.

(** When [rebuild_batch] returns, [visible_blocks] holds exactly the occupied
    positions in view that [is_exposed] accepts, and [blocks] is as before. *)
Lemma rebuild_batch_returns (player_pos : float * float * float)
  (w w' : StableDiffusion.World) :
  StableDiffusion.rebuild_batch player_pos w = (Ret tt, w') ->
  StableDiffusion.blocks w' = StableDiffusion.blocks w /\
  forall q,
    contains (StableDiffusion.visible_blocks w') q = true <->
    contains (StableDiffusion.blocks w) q = true /\
    in_view (fst (fst player_pos)) (snd player_pos) q /\
    StableDiffusion.is_exposed (StableDiffusion.blocks w) q = true.
Proof.
  destruct player_pos as [[px py] pz]. unfold StableDiffusion.rebuild_batch.
  destruct (StableDiffusion.rebuild_loop _ _ _ _ _ _) as [r [vis b]] eqn:E.
  intros H. injection H as -> <-. cbn [StableDiffusion.blocks StableDiffusion.visible_blocks].
  split; [reflexivity |]. intros q.
  rewrite (rebuild_loop_returns _ _ _ _ _ _ _ _ E q).
  rewrite contains_empty, contains_true. cbn [fst snd]. split.
  - intros [Hq | ([t Hin] & Hv & He)]; [discriminate |].
    apply list_elem_of_In, elem_of_map_to_list in Hin. eauto.
  - intros ([t Ht] & Hv & He). right.
    split; [| split; assumption].
    exists t. apply list_elem_of_In, elem_of_map_to_list. exact Ht.
Qed.

(** Whatever the loop of [rebuild_batch] ends with, it has added to
    [visible_blocks] only items in view that [is_exposed] accepts. *)
Lemma rebuild_loop_sound (blocks : gmap pos string) (px pz : float)
  (items : list (pos * string)) :
  forall vis b r vis' b',
    StableDiffusion.rebuild_loop blocks px pz items vis b = (r, (vis', b')) ->
    forall q,
      contains vis' q = true ->
      contains vis q = true \/
      ((exists block_type, In (q, block_type) items) /\
       in_view px pz q /\ StableDiffusion.is_exposed blocks q = true).
Proof.
  induction items as [| [[[x y] z] block_type] items IH]; intros vis b r vis' b' H q Hq.
  - cbn in H. injection H as <- <- <-. left. exact Hq.
  - cbn [StableDiffusion.rebuild_loop] in H.
    assert (Hrest : forall vis0 b0,
      StableDiffusion.rebuild_loop blocks px pz items vis0 b0 = (r, (vis', b')) ->
      contains vis0 q = true \/
      ((exists t, In (q, t) ((x, y, z, block_type) :: items)) /\
       in_view px pz q /\ StableDiffusion.is_exposed blocks q = true)).
    { intros vis0 b0 H0. destruct (IH _ _ _ _ _ H0 q Hq) as [Hv | ([t Hin] & Hv & He)].
      - left. exact Hv.
      - right. split; [exists t; right; exact Hin |]. split; assumption. }
    destruct (StableDiffusion.within_render_distance x z px pz) as [[|] | e] eqn:Ev.
    + destruct (StableDiffusion.is_exposed blocks (x, y, z)) eqn:Ex.
      * destruct (rbind (StableDiffusion.create_cube_vertices x y z block_type) _)
          as [[vl b1] | e].
        -- destruct (Hrest _ _ H) as [Hv | Hr]; [| right; exact Hr].
           apply contains_insert_iff in Hv. destruct Hv as [-> | Hv]; [| left; exact Hv].
           right. split; [exists block_type; left; reflexivity |]. split; assumption.
        -- injection H as <- <- <-. left. exact Hq.
      * apply (Hrest _ _ H).
    + apply (Hrest _ _ H).
    + injection H as <- <- <-. left. exact Hq.
Qed.

Lemma within_render_distance_returns (x z : Z) (px pz : float) :
  (exists fx, float_of_int x = Ret fx) ->
  (exists fz, float_of_int z = Ret fz) ->
  exists d, StableDiffusion.within_render_distance x z px pz = Ret d.
Proof.
  intros [fx Hx] [fz Hz]. unfold StableDiffusion.within_render_distance.
  destruct (float_of_int (StableDiffusion.RENDER_DISTANCE * StableDiffusion.CHUNK_s))
    as [render_sq | e] eqn:E; [| vm_compute in E; discriminate].
  cbn [rbind]. rewrite Hx. cbn [rbind].
  destruct (SFltb _ _); [| eauto].
  rewrite Hz. cbn [rbind]. eauto.
Qed.

(** [create_cube_vertices] returns 72 coordinates and 72 colour components
    when the three coordinates convert to floats. *)
Lemma create_cube_vertices_returns (x y z : Z) (block_type : string) :
  (exists fx, float_of_int x = Ret fx) ->
  (exists fy, float_of_int y = Ret fy) ->
  (exists fz, float_of_int z = Ret fz) ->
  exists vertices colors,
    StableDiffusion.create_cube_vertices x y z block_type = Ret (vertices, colors) /\
    length vertices = 72%nat /\ length colors = 72%nat.
Proof.
  intros [fx Hx] [fy Hy] [fz Hz]. unfold StableDiffusion.create_cube_vertices.
  destruct (StableDiffusion.get_block_color block_type) as [[r g] b].
  rewrite Hx, Hy, Hz. cbn [rbind].
  eexists _, _. split; [reflexivity |]. split; reflexivity.
Qed.

(** 72 coordinates and 72 colour components fit the 24 vertices asked of
    [batch.add]. *)
Lemma batch_add_cube_fits (b : Batch) (vertices colors : list float) :
  length vertices = 72%nat -> length colors = 72%nat ->
  exists vl, batch_add b 24 [(3%nat, vertices); (3%nat, colors)] = Ret (vl, b ++ [vl]).
Proof.
  intros Hv Hc. unfold batch_add. cbn [forallb array_fits]. rewrite Hv, Hc.
  cbn. eauto.
Qed.

Lemma rebuild_loop_total (blocks : gmap pos string) (px pz : float)
  (items : list (pos * string)) :
  (forall x y z t, In ((x, y, z), t) items ->
     (exists fx, float_of_int x = Ret fx) /\
     (exists fy, float_of_int y = Ret fy) /\
     (exists fz, float_of_int z = Ret fz)) ->
  forall vis b,
    fst (StableDiffusion.rebuild_loop blocks px pz items vis b) = Ret tt.
Proof.
  induction items as [| [[[x y] z] t] items IH]; intros Hdef vis b; [reflexivity |].
  cbn [StableDiffusion.rebuild_loop].
  destruct (Hdef x y z t (or_introl eq_refl)) as (Hx & Hy & Hz).
  assert (Hdef' : forall x y z t, In ((x, y, z), t) items ->
            (exists fx, float_of_int x = Ret fx) /\
            (exists fy, float_of_int y = Ret fy) /\
            (exists fz, float_of_int z = Ret fz)).
  { intros x' y' z' t' H. apply (Hdef x' y' z' t'). right. exact H. }
  destruct (within_render_distance_returns x z px pz Hx Hz) as [d ->].
  destruct d; [| apply IH, Hdef'].
  destruct (StableDiffusion.is_exposed blocks (x, y, z)); [| apply IH, Hdef'].
  destruct (create_cube_vertices_returns x y z t Hx Hy Hz) as (vs & cs & -> & Hv & Hc).
  cbn [rbind]. destruct (batch_add_cube_fits b vs cs Hv Hc) as [vl ->].
  apply IH, Hdef'.
Qed.

(** [rebuild_batch] returns when every block coordinate converts to a float. *)
Lemma rebuild_batch_total (player_pos : float * float * float)
  (w : StableDiffusion.World) :
  coordinates_convert (StableDiffusion.blocks w) ->
  fst (StableDiffusion.rebuild_batch player_pos w) = Ret tt.
Proof.
  intros Hdef. destruct player_pos as [[px py] pz].
  unfold StableDiffusion.rebuild_batch.
  pose proof (rebuild_loop_total (StableDiffusion.blocks w) px pz
                (map_to_list (StableDiffusion.blocks w))) as Htot.
  destruct (StableDiffusion.rebuild_loop _ _ _ _ _ _) as [r [vis b]] eqn:E.
  cbn [fst]. specialize (Htot ltac:(
    intros x y z t Hin; apply (Hdef x y z); apply contains_true; exists t;
    apply elem_of_map_to_list, list_elem_of_In; exact Hin) ∅ new_batch).
  rewrite E in Htot. exact Htot.
Qed.

(** Whatever [rebuild_batch] ends with, [blocks] is as before and
    [visible_blocks] holds only occupied positions in view that [is_exposed]
    accepts. *)
Lemma rebuild_batch_sound (player_pos : float * float * float)
  (w : StableDiffusion.World) :
  StableDiffusion.blocks (snd (StableDiffusion.rebuild_batch player_pos w))
  = StableDiffusion.blocks w /\
  forall q,
    contains (StableDiffusion.visible_blocks
                (snd (StableDiffusion.rebuild_batch player_pos w))) q = true ->
    contains (StableDiffusion.blocks w) q = true /\
    in_view (fst (fst player_pos)) (snd player_pos) q /\
    StableDiffusion.is_exposed (StableDiffusion.blocks w) q = true.
Proof.
  destruct player_pos as [[px py] pz]. unfold StableDiffusion.rebuild_batch.
  destruct (StableDiffusion.rebuild_loop _ _ _ _ _ _) as [r [vis b]] eqn:E.
  cbn [snd fst StableDiffusion.blocks StableDiffusion.visible_blocks].
  split; [reflexivity |]. intros q Hq.
  destruct (rebuild_loop_sound _ _ _ _ _ _ _ _ _ E q Hq) as [H | ([t Hin] & Hv & He)].
  - rewrite contains_empty in H. discriminate.
  - split; [| split; assumption].
    apply contains_true. exists t.
    apply list_elem_of_In, elem_of_map_to_list in Hin. exact Hin.
Qed.

(** C10: [StableDiffusionWorld.add_block] and [remove_block] write [blocks]
    only, leaving [visible_blocks] and the batch as they were.
    [rebuild_batch] computes the exposure cache anew from [blocks] and the
    player position alone: it leaves [blocks] as it was, it never leaves in
    [visible_blocks] a position that is not occupied, in view and exposed;
    when it returns, [visible_blocks] holds exactly those positions; and it
    returns when every block coordinate converts to a float. *)
Theorem stable_mutations_frame (w : StableDiffusion.World) (p : pos)
  (block_type : string) (player_pos : float * float * float)
  (vis : gmap pos VertexList) (b : Batch) :
  (StableDiffusion.visible_blocks (StableDiffusion.add_block p block_type w)
     = StableDiffusion.visible_blocks w /\
   StableDiffusion.batch (StableDiffusion.add_block p block_type w)
     = StableDiffusion.batch w /\
   StableDiffusion.blocks (StableDiffusion.add_block p block_type w)
     = <[p := block_type]> (StableDiffusion.blocks w)) /\
  (StableDiffusion.visible_blocks (StableDiffusion.remove_block p w)
     = StableDiffusion.visible_blocks w /\
   StableDiffusion.batch (StableDiffusion.remove_block p w)
     = StableDiffusion.batch w /\
   StableDiffusion.blocks (StableDiffusion.remove_block p w)
     = delete p (StableDiffusion.blocks w)) /\
  StableDiffusion.rebuild_batch player_pos w
  = StableDiffusion.rebuild_batch player_pos
      (StableDiffusion.mkWorld (StableDiffusion.blocks w) vis b) /\
  (let w' := snd (StableDiffusion.rebuild_batch player_pos w) in
   StableDiffusion.blocks w' = StableDiffusion.blocks w /\
   (forall q,
      contains (StableDiffusion.visible_blocks w') q = true ->
      contains (StableDiffusion.blocks w) q = true /\
      in_view (fst (fst player_pos)) (snd player_pos) q /\
      StableDiffusion.is_exposed (StableDiffusion.blocks w) q = true) /\
   (fst (StableDiffusion.rebuild_batch player_pos w) = Ret tt ->
    cache_exact (fst (fst player_pos)) (snd player_pos) w')) /\
  (coordinates_convert (StableDiffusion.blocks w) ->
   fst (StableDiffusion.rebuild_batch player_pos w) = Ret tt).
Proof.
  split; [repeat split |]. split.
  { unfold StableDiffusion.remove_block.
    destruct (contains (StableDiffusion.blocks w) p) eqn:E; cbn; repeat split.
    symmetry. apply delete_id. apply contains_false, E. }
  split; [destruct player_pos as [[px py] pz]; reflexivity |].
  split; [| apply rebuild_batch_total].
  cbv zeta. destruct (rebuild_batch_sound player_pos w) as [Hb Hsound].
  split; [exact Hb |]. split; [exact Hsound |].
  intros Hret.
  destruct (StableDiffusion.rebuild_batch player_pos w) as [r w'] eqn:E.
  cbn [fst snd] in *. subst r.
  destruct (rebuild_batch_returns player_pos w w' E) as [_ Hvis].
  intros q. rewrite Hb. apply Hvis.
Qed.

Lemma stable_mutations_frame_witness :
  fst (StableDiffusion.rebuild_batch (f0, f0, f0) grass_world) = Ret tt /\
  cache_exact f0 f0 (snd (StableDiffusion.rebuild_batch (f0, f0, f0) grass_world)) /\
  contains (StableDiffusion.visible_blocks
              (snd (StableDiffusion.rebuild_batch (f0, f0, f0) grass_world))) (0, 0, 0)
  = true.
Proof.
  destruct (stable_mutations_frame grass_world (0, 0, 0) "grass" (f0, f0, f0) ∅ new_batch)
    as (_ & _ & _ & (_ & _ & Hexact) & Htotal).
  assert (Hret : fst (StableDiffusion.rebuild_batch (f0, f0, f0) grass_world) = Ret tt).
  { apply Htotal. intros x y z H. apply contains_true in H. destruct H as [t H].
    cbn in H. apply lookup_singleton_Some in H. destruct H as [H _].
    injection H as <- <- <-. repeat split; eexists; vm_compute; reflexivity. }
  split; [exact Hret |]. split; [exact (Hexact Hret) |].
  vm_compute. reflexivity.
Defined.

(** * Further properties of the code *)

(** ** [World]: what the mutations do although they raise *)

(** X1: no mutation of [World] completes: [add_block] at a free position and
    [remove_block] at an occupied one raise, in every world, one of
    [TypeError], [ValueError] and [OverflowError]. *)
Theorem mutations_never_complete (w : DeepSeek.World) (p : pos) (block_type : string) :
  (contains (DeepSeek.blocks w) p = false ->
   exists e, mutation_error e /\ fst (DeepSeek.add_block p block_type w) = Raise e) /\
  (contains (DeepSeek.blocks w) p = true ->
   exists e, mutation_error e /\ fst (DeepSeek.remove_block p w) = Raise e).
Proof.
  split; intros H.
  - apply add_block_free_raises, H.
  - apply remove_block_occupied_raises, H.
Qed.

Lemma mutations_never_complete_witness :
  (exists e, mutation_error e /\
     fst (DeepSeek.add_block (1, 2, 3) "SAND" DeepSeek.empty_world) = Raise e) /\
  (exists e, mutation_error e /\
     fst (DeepSeek.remove_block (0, 0, 0) (DeepSeek.mkWorld new_batch stone_at_origin ∅))
     = Raise e).
Proof.
  split.
  - apply (mutations_never_complete DeepSeek.empty_world (1, 2, 3) "SAND").
    reflexivity.
  - apply (mutations_never_complete (DeepSeek.mkWorld new_batch stone_at_origin ∅)
             (0, 0, 0) "SAND").
    reflexivity.
Defined.

(** X2: [World()] never returns: whatever the hills would be, [build_world]
    raises [ValueError] in its first [add_block], when [make_visible] hands
    the batch 84 vertex coordinates for 24 vertices; the world it leaves holds
    the single grass block at (-30,-1,-30), and no visible block. *)
Theorem World_init_raises (hills : DeepSeek.M unit) :
  fst (DeepSeek.World_init hills) = Raise ValueError /\
  DeepSeek.blocks (snd (DeepSeek.World_init hills)) = {[ (-30, -1, -30) := "GRASS"%string ]} /\
  DeepSeek.visible_blocks (snd (DeepSeek.World_init hills)) = ∅.
Proof.
  unfold DeepSeek.World_init, DeepSeek.build_world, DeepSeek.bind.
  destruct (DeepSeek.build_ground DeepSeek.empty_world) as [r w] eqn:E.
  vm_compute in E. injection E as <- <-.
  repeat split.
Qed.

(** ** [visible_blocks] is never added to *)

Section CacheNeverFilled.
Import DeepSeek.

Lemma shows_nothing_ret {A} (a : A) : shows_nothing (ret a).
Proof. intros w. reflexivity. Qed.

Lemma shows_nothing_lift {A} (r : result A) : shows_nothing (lift r).
Proof. intros w. reflexivity. Qed.

Lemma shows_nothing_get : shows_nothing get.
Proof. intros w. reflexivity. Qed.

Lemma shows_nothing_bind {A B} (c : M A) (k : A -> M B) :
  shows_nothing c -> (forall a, shows_nothing (k a)) -> shows_nothing (bind c k).
Proof.
  intros Hc Hk w. unfold bind. specialize (Hc w).
  destruct (c w) as [[a | e] w']; cbn in *.
  - etransitivity; [apply Hk | exact Hc].
  - exact Hc.
Qed.

Lemma shows_nothing_if {A} (b : bool) (c1 c2 : M A) :
  shows_nothing c1 -> shows_nothing c2 -> shows_nothing (if b then c1 else c2).
Proof. destruct b; auto. Qed.

Lemma shows_nothing_for_each {A} (l : list A) (body : A -> M unit) :
  (forall a, shows_nothing (body a)) -> shows_nothing (for_each l body).
Proof.
  intros Hbody. induction l as [| a l IH]; cbn [for_each].
  - apply shows_nothing_ret.
  - apply shows_nothing_bind; auto.
Qed.

Lemma shows_nothing_make_visible p : shows_nothing (make_visible p).
Proof.
  intros w. destruct (make_visible_run p w) as [-> _]. reflexivity.
Qed.

Lemma shows_nothing_make_hidden p : shows_nothing (make_hidden p).
Proof.
  intros w. unfold make_hidden.
  destruct (visible_blocks w !! p); cbn; [apply delete_subseteq | reflexivity].
Qed.

Lemma shows_nothing_set_block p block_type : shows_nothing (set_block p block_type).
Proof. intros w. reflexivity. Qed.

Lemma shows_nothing_del_block p : shows_nothing (del_block p).
Proof. intros w. reflexivity. Qed.

Create HintDb cache.
Hint Resolve shows_nothing_ret shows_nothing_lift shows_nothing_get
  shows_nothing_make_visible shows_nothing_make_hidden
  shows_nothing_set_block shows_nothing_del_block : cache.

Ltac shows_nothing :=
  repeat first
    [ apply shows_nothing_bind; [| intros ?]
    | apply shows_nothing_if
    | apply shows_nothing_for_each; intros ?
    | solve [auto with cache] ].

Lemma shows_nothing_add_block p block_type : shows_nothing (add_block p block_type).
Proof. unfold add_block, add_block_neighbor. shows_nothing. Qed.

Lemma shows_nothing_remove_block p : shows_nothing (remove_block p).
Proof. unfold remove_block, remove_block_neighbor. shows_nothing. Qed.

Lemma shows_nothing_apply_op o : shows_nothing (apply_op o).
Proof.
  destruct o; [apply shows_nothing_add_block | apply shows_nothing_remove_block].
Qed.

End CacheNeverFilled.

(** X3: no sequence of [add_block] and [remove_block] calls, on any world and
    whatever the calls raise, adds a key to [visible_blocks] or changes the
    vertex list stored under one: what the dictionary holds afterwards it held
    before.  On the world of [World.__init__] it therefore stays empty. *)
Theorem visible_blocks_never_grow (ops : list op) :
  (forall w, DeepSeek.visible_blocks (snd (run_ops ops w)) ⊆ DeepSeek.visible_blocks w) /\
  DeepSeek.visible_blocks (snd (run_ops ops DeepSeek.empty_world)) = ∅.
Proof.
  assert (H : forall w,
    DeepSeek.visible_blocks (snd (run_ops ops w)) ⊆ DeepSeek.visible_blocks w).
  { induction ops as [| o ops IH]; intros w; cbn [run_ops]; [reflexivity |].
    pose proof (shows_nothing_apply_op o w) as Ho.
    destruct (apply_op o w) as [r w1]. specialize (IH w1).
    destruct (run_ops ops w1) as [rs w2]. cbn in *.
    etransitivity; eassumption. }
  split; [exact H |].
  apply map_eq. intros p. rewrite lookup_empty.
  specialize (H DeepSeek.empty_world).
  rewrite map_subseteq_spec in H.
  destruct (DeepSeek.visible_blocks (snd (run_ops ops DeepSeek.empty_world)) !! p)
    as [vl |] eqn:E; [| reflexivity].
  apply H in E. cbn in E. rewrite lookup_empty in E. discriminate.
Qed.

(** ** [blocks] as a dictionary under the mutations *)

(** X4: whether they return or raise, [add_block] and [remove_block] write
    [blocks] at their own position only: afterwards the position holds the
    first block stored there, or nothing, and every other position is as
    before. *)
Theorem mutations_write_one_key (w : DeepSeek.World) (p q : pos) (block_type : string) :
  (DeepSeek.blocks (snd (DeepSeek.add_block p block_type w)) !! p
   = Some (default block_type (DeepSeek.blocks w !! p))) /\
  (DeepSeek.blocks (snd (DeepSeek.remove_block p w)) !! p = None) /\
  (q <> p ->
   DeepSeek.blocks (snd (DeepSeek.add_block p block_type w)) !! q
   = DeepSeek.blocks w !! q /\
   DeepSeek.blocks (snd (DeepSeek.remove_block p w)) !! q
   = DeepSeek.blocks w !! q).
Proof.
  rewrite add_block_blocks, remove_block_blocks. unfold contains.
  destruct (DeepSeek.blocks w !! p) as [t |] eqn:E; cbn [default].
  - split; [exact E |]. split; [apply lookup_delete_eq |].
    intros Hne. split; [reflexivity |]. apply lookup_delete_ne. congruence.
  - split; [apply lookup_insert_eq |]. split; [exact E |].
    intros Hne. split; [| reflexivity]. apply lookup_insert_ne. congruence.
Qed.

Lemma mutations_write_one_key_witness :
  DeepSeek.blocks (snd (DeepSeek.add_block (0, 0, 0) "SAND" DeepSeek.empty_world))
    !! (1, 0, 0) = None.
Proof.
  destruct (mutations_write_one_key DeepSeek.empty_world (0, 0, 0) (1, 0, 0) "SAND")
    as (_ & _ & H).
  destruct H as [H _]; [discriminate |].
  etransitivity; [exact H | reflexivity].
Defined.

(** X5: [remove_block] after [add_block] at a free position gives back the
    block map, whatever the two calls raise. *)
Theorem add_then_remove_restores_blocks (w : DeepSeek.World) (p : pos)
  (block_type : string) :
  contains (DeepSeek.blocks w) p = false ->
  DeepSeek.blocks
    (snd (DeepSeek.remove_block p (snd (DeepSeek.add_block p block_type w))))
  = DeepSeek.blocks w.
Proof.
  intros Hfree. rewrite remove_block_blocks, add_block_blocks, Hfree.
  rewrite contains_insert. apply delete_insert_id. apply contains_false, Hfree.
Qed.

Lemma add_then_remove_restores_blocks_witness :
  DeepSeek.blocks
    (snd (DeepSeek.remove_block (0, 1, 0)
            (snd (DeepSeek.add_block (0, 1, 0) "WOOD"
                    (DeepSeek.mkWorld new_batch stone_at_origin ∅)))))
  = stone_at_origin.
Proof.
  apply (add_then_remove_restores_blocks
           (DeepSeek.mkWorld new_batch stone_at_origin ∅) (0, 1, 0) "WOOD").
  reflexivity.
Defined.

(** ** What a hit of [raycast] is *)

Lemma raycast_loop_hit (blocks : gmap pos string) (direction : DeepSeek.vec3) (n : nat) :
  forall current h a,
    DeepSeek.raycast_loop blocks direction n current = Ret (Some h, a) ->
    exists k prev,
      (k < n)%nat /\
      unobstructed blocks direction current k /\
      DeepSeek.round3 (march direction k current) = Ret h /\
      contains blocks h = true /\
      a = Some prev /\
      DeepSeek.round3 (DeepSeek.retreat direction (march direction k current)) = Ret prev.
Proof.
  induction n as [| n IH]; intros current h a H; [discriminate |].
  cbn [DeepSeek.raycast_loop] in H.
  destruct (DeepSeek.round3 current) as [c | e] eqn:Ec; [| discriminate].
  cbn [rbind] in H. destruct (contains blocks c) eqn:Eocc.
  - destruct (DeepSeek.round3 (DeepSeek.retreat direction current)) as [pr | e] eqn:Ep;
      [| discriminate].
    cbn [rbind] in H. injection H as <- <-.
    exists 0%nat, pr. cbn [march].
    split; [lia |]. split; [intros k Hk; lia |]. auto.
  - destruct (IH _ _ _ H) as (k & prev & Hk & Hfree & Hh & Hocc & Ha & Hprev).
    exists (S k), prev. cbn [march].
    split; [lia |]. split; [| auto].
    intros j Hj. destruct j as [| j].
    + exists c. cbn [march]. auto.
    + cbn [march]. apply Hfree. lia.
Qed.

(** X6: when [raycast] reports a hit, the hit is an occupied cell, reached in
    some round [k] of the march within the maximum distance; every earlier
    round met a free cell; and the adjacent position is reported too, the
    rounded position one step back from round [k].  In both programs. *)
Theorem raycast_hit_is_first_occupied (blocks : gmap pos string)
  (b : Batch) (vis : gmap pos VertexList)
  (start direction : DeepSeek.vec3) (max_distance : float)
  (h : pos) (a : option pos) :
  DeepSeek.raycast (DeepSeek.mkWorld b blocks vis) start direction max_distance
    = Ret (Some h, a) \/
  StableDiffusion.raycast (StableDiffusion.mkWorld blocks vis b) start direction
    max_distance = Ret (Some h, a) ->
  exists n k prev,
    py_int (fdiv max_distance DeepSeek.step_size) = Ret n /\
    (k < Z.to_nat n)%nat /\
    unobstructed blocks direction start k /\
    DeepSeek.round3 (march direction k start) = Ret h /\
    contains blocks h = true /\
    a = Some prev /\
    DeepSeek.round3 (DeepSeek.retreat direction (march direction k start)) = Ret prev.
Proof.
  intros H.
  assert (H' : DeepSeek.raycast (DeepSeek.mkWorld b blocks vis) start direction
                 max_distance = Ret (Some h, a)).
  { destruct H as [H | H]; [exact H |].
    rewrite <- H. symmetry. apply stable_raycast_eq. reflexivity. }
  clear H. unfold DeepSeek.raycast in H'. cbn [DeepSeek.blocks] in H'.
  destruct (py_int (fdiv max_distance DeepSeek.step_size)) as [n | e]; [| discriminate].
  cbn [rbind] in H'. apply raycast_loop_hit in H'.
  destruct H' as (k & prev & H'). exists n, k, prev. split; [reflexivity | exact H'].
Qed.

Lemma raycast_hit_is_first_occupied_witness :
  exists n k prev,
    py_int (fdiv f10 DeepSeek.step_size) = Ret n /\
    (k < Z.to_nat n)%nat /\
    unobstructed {[ (2, 0, 0) := "STONE"%string ]} (f1, f0, f0) (f0, f0, f0) k /\
    DeepSeek.round3 (march (f1, f0, f0) k (f0, f0, f0)) = Ret (2, 0, 0) /\
    contains ({[ (2, 0, 0) := "STONE"%string ]} : gmap pos string) (2, 0, 0) = true /\
    Some (1, 0, 0) = Some prev /\
    DeepSeek.round3 (DeepSeek.retreat (f1, f0, f0) (march (f1, f0, f0) k (f0, f0, f0)))
    = Ret prev.
Proof.
  apply (raycast_hit_is_first_occupied {[ (2, 0, 0) := "STONE"%string ]} new_batch ∅
           (f0, f0, f0) (f1, f0, f0) f10 (2, 0, 0) (Some (1, 0, 0))).
  left. vm_compute. reflexivity.
Defined.

(** ** [GameWindow]: clicks *)

(** X7: a left click with the mouse locked, when the ray hits, deletes the hit
    block and no other from [blocks]; the hit was occupied, and the handler
    raises with [remove_block], one of [TypeError], [ValueError] and
    [OverflowError]. *)
Theorem left_click_removes_hit (direction : DeepSeek.vec3) (g : DeepSeek.GameWindow)
  (hit : pos) (adjacent : option pos) :
  DeepSeek.mouse_locked g = true ->
  DeepSeek.raycast (DeepSeek.world g) (DeepSeek.position (DeepSeek.player g))
    direction f10 = Ret (Some hit, adjacent) ->
  contains (DeepSeek.blocks (DeepSeek.world g)) hit = true /\
  (exists e, mutation_error e /\
     fst (DeepSeek.on_mouse_press direction mouse.LEFT g) = Raise e) /\
  DeepSeek.blocks (DeepSeek.world (snd (DeepSeek.on_mouse_press direction mouse.LEFT g)))
  = delete hit (DeepSeek.blocks (DeepSeek.world g)).
Proof.
  intros Hlock Hray.
  assert (Hocc : contains (DeepSeek.blocks (DeepSeek.world g)) hit = true).
  { unfold DeepSeek.raycast in Hray.
    destruct (py_int (fdiv f10 DeepSeek.step_size)) as [n | e]; [| discriminate].
    cbn [rbind] in Hray. apply raycast_loop_hit in Hray.
    destruct Hray as (k & prev & _ & _ & _ & H & _). exact H. }
  split; [exact Hocc |].
  unfold DeepSeek.on_mouse_press. rewrite Hlock, Hray. cbn [negb].
  pose proof (remove_block_occupied_raises hit (DeepSeek.world g) Hocc) as Hr.
  pose proof (remove_block_blocks hit (DeepSeek.world g)) as Hb. rewrite Hocc in Hb.
  destruct Hr as (e & He & Hr).
  destruct (DeepSeek.remove_block hit (DeepSeek.world g)) as [r w']. cbn in *.
  subst r. cbn. split; [exists e; split; [exact He | reflexivity] | exact Hb].
Qed.

Lemma left_click_removes_hit_witness :
  DeepSeek.blocks (DeepSeek.world (snd (DeepSeek.on_mouse_press (f1, f0, f0) mouse.LEFT
    (DeepSeek.mkGameWindow (DeepSeek.mkWorld new_batch {[ (2, 0, 0) := "STONE"%string ]} ∅)
       DeepSeek.new_player (0, 0) true))))
  = delete (2, 0, 0) {[ (2, 0, 0) := "STONE"%string ]}.
Proof.
  refine (proj2 (proj2 (left_click_removes_hit (f1, f0, f0)
           (DeepSeek.mkGameWindow
              (DeepSeek.mkWorld new_batch {[ (2, 0, 0) := "STONE"%string ]} ∅)
              DeepSeek.new_player (0, 0) true)
           (2, 0, 0) (Some (1, 0, 0)) _ _))).
  - reflexivity.
  - vm_compute. reflexivity.
Defined.

(** X8: a click that is not a left click never removes or retypes a block: a
    right click whose ray reports the adjacent cell [a] stores 'BRICK' there
    when [a] is free and changes nothing when [a] is occupied, a middle click
    changes nothing, and a click with the mouse unlocked only locks it. *)
Theorem right_click_never_overwrites (direction : DeepSeek.vec3)
  (button : mouse.button) (g : DeepSeek.GameWindow) :
  let g' := snd (DeepSeek.on_mouse_press direction button g) in
  (DeepSeek.mouse_locked g = false ->
   DeepSeek.on_mouse_press direction button g
   = (Ret tt, DeepSeek.mkGameWindow (DeepSeek.world g) (DeepSeek.player g)
                (DeepSeek.strafe g) true)) /\
  (button <> mouse.LEFT ->
   forall q t, DeepSeek.blocks (DeepSeek.world g) !! q = Some t ->
               DeepSeek.blocks (DeepSeek.world g') !! q = Some t) /\
  (button = mouse.RIGHT -> DeepSeek.mouse_locked g = true ->
   forall hit a,
     DeepSeek.raycast (DeepSeek.world g) (DeepSeek.position (DeepSeek.player g))
       direction f10 = Ret (hit, Some a) ->
     DeepSeek.blocks (DeepSeek.world g')
     = if contains (DeepSeek.blocks (DeepSeek.world g)) a
       then DeepSeek.blocks (DeepSeek.world g)
       else <[a := "BRICK"%string]> (DeepSeek.blocks (DeepSeek.world g))).
Proof.
  cbv zeta. split; [| split].
  - intros Hlock. unfold DeepSeek.on_mouse_press. rewrite Hlock. reflexivity.
  - intros Hb q t Hq. unfold DeepSeek.on_mouse_press.
    destruct (DeepSeek.mouse_locked g); cbn [negb]; [| exact Hq].
    destruct (DeepSeek.raycast _ _ _ _) as [[hit adj] | e]; [| exact Hq].
    destruct button; try contradiction.
    + destruct hit, adj; exact Hq.
    + destruct adj as [a |]; [| destruct hit; exact Hq].
      pose proof (add_block_blocks a "BRICK" (DeepSeek.world g)) as Hadd.
      assert (Hgoal : DeepSeek.blocks
                (snd (DeepSeek.add_block a "BRICK" (DeepSeek.world g))) !! q = Some t).
      { rewrite Hadd. unfold contains.
        destruct (DeepSeek.blocks (DeepSeek.world g) !! a) eqn:Ea; [exact Hq |].
        rewrite lookup_insert_ne by congruence. exact Hq. }
      destruct (DeepSeek.add_block a "BRICK" (DeepSeek.world g)) as [r w'].
      destruct hit; exact Hgoal.
  - intros -> Hlock hit a Hray. unfold DeepSeek.on_mouse_press.
    rewrite Hlock, Hray. cbn [negb].
    pose proof (add_block_blocks a "BRICK" (DeepSeek.world g)) as Hadd.
    destruct (DeepSeek.add_block a "BRICK" (DeepSeek.world g)) as [r w'].
    destruct hit; exact Hadd.
Qed.

Lemma right_click_never_overwrites_witness :
  DeepSeek.blocks (DeepSeek.world (snd (DeepSeek.on_mouse_press (f1, f0, f0) mouse.RIGHT
    (DeepSeek.mkGameWindow (DeepSeek.mkWorld new_batch {[ (2, 0, 0) := "STONE"%string ]} ∅)
       DeepSeek.new_player (0, 0) true))))
  = <[(1, 0, 0) := "BRICK"%string]> {[ (2, 0, 0) := "STONE"%string ]}.
Proof.
  refine (proj2 (proj2 (right_click_never_overwrites (f1, f0, f0) mouse.RIGHT
           (DeepSeek.mkGameWindow
              (DeepSeek.mkWorld new_batch {[ (2, 0, 0) := "STONE"%string ]} ∅)
              DeepSeek.new_player (0, 0) true))) _ _ (Some (2, 0, 0)) (1, 0, 0) _).
  - reflexivity.
  - reflexivity.
  - vm_compute. reflexivity.
Defined.

(** ** [GameWindow]: looking, keys, moving *)

Lemma SFltb_SFleb (x y : float) : SFltb x y = true -> SFleb x y = true.
Proof.
  unfold SFltb, SFleb. destruct (SFcompare x y) as [[| |] |]; congruence.
Qed.

(** [max(lo, min(hi, v))] lies between [lo] and [hi] for every float [v],
    NaN included. *)
Lemma clamp_between (lo hi v : float) :
  SFleb lo lo = true -> SFleb hi hi = true -> SFleb lo hi = true ->
  between lo hi (py_max lo (py_min hi v)).
Proof.
  intros Hlo Hhi Hlh. unfold between, py_max, py_min.
  destruct (SFltb v hi) eqn:E1.
  - destruct (SFltb lo v) eqn:E2; auto using SFltb_SFleb.
  - destruct (SFltb lo hi) eqn:E2; auto.
Qed.

(** X9: after [on_mouse_motion], with the mouse locked, the pitch lies between
    -90 and 90 whatever the motion and the rotation before (NaN and infinities
    included); with the mouse unlocked nothing changes. *)
Theorem pitch_stays_clamped (dx dy : float) (g : DeepSeek.GameWindow) :
  (DeepSeek.mouse_locked g = true ->
   between fm90 f90
     (snd (DeepSeek.rotation (DeepSeek.player (DeepSeek.on_mouse_motion dx dy g))))) /\
  (DeepSeek.mouse_locked g = false -> DeepSeek.on_mouse_motion dx dy g = g).
Proof.
  unfold DeepSeek.on_mouse_motion. split; intros ->; [| reflexivity].
  destruct (DeepSeek.rotation (DeepSeek.player g)) as [yaw pitch].
  cbn [DeepSeek.set_player DeepSeek.player DeepSeek.rotation snd].
  apply clamp_between; reflexivity.
Qed.

Lemma pitch_stays_clamped_witness :
  between fm90 f90
    (snd (DeepSeek.rotation (DeepSeek.player
       (DeepSeek.on_mouse_motion f10 (S754_infinity true)
          (DeepSeek.mkGameWindow DeepSeek.empty_world DeepSeek.new_player (0, 0) true))))).
Proof.
  apply (pitch_stays_clamped f10 (S754_infinity true)
           (DeepSeek.mkGameWindow DeepSeek.empty_world DeepSeek.new_player (0, 0) true)).
  reflexivity.
Defined.

(** X10: releasing a key after pressing it gives back [strafe], for every
    key; neither handler touches the world, and pressing TAB twice gives back
    the window. *)
Theorem key_release_undoes_press (symbol : key.symbol) (g : DeepSeek.GameWindow) :
  DeepSeek.strafe (DeepSeek.on_key_release symbol (DeepSeek.on_key_press symbol g))
  = DeepSeek.strafe g /\
  DeepSeek.world (DeepSeek.on_key_release symbol (DeepSeek.on_key_press symbol g))
  = DeepSeek.world g /\
  DeepSeek.on_key_press key.TAB (DeepSeek.on_key_press key.TAB g) = g.
Proof.
  destruct g as [w [ps rot [[v0 v1] v2] og fl h wd] [s0 s1] ml].
  split; [| split].
  - destruct symbol; cbn; try (f_equal; lia); try reflexivity.
    destruct (og || fl); reflexivity.
  - destruct symbol; cbn; try reflexivity. destruct (og || fl); reflexivity.
  - cbn. rewrite negb_involutive. reflexivity.
Qed.

Lemma collide_loop_returns (g : DeepSeek.GameWindow) (w h : float)
  (new_pos : DeepSeek.vec3) (offsets : list DeepSeek.vec3) (r : DeepSeek.vec3) :
  DeepSeek.collide_loop g w h new_pos offsets = Ret r ->
  r = new_pos \/ r = DeepSeek.position (DeepSeek.player g).
Proof.
  induction offsets as [| [[dx dy] dz] offsets IH]; cbn [DeepSeek.collide_loop].
  - intros H. injection H as <-. left. reflexivity.
  - destruct new_pos as [[px py] pz].
    destruct (DeepSeek.round3 _) as [[[bx by_] bz] | e]; [| discriminate].
    cbn [rbind]. destruct (DeepSeek.is_block_at _ _); [| exact IH].
    destruct (float_of_int bx) as [fbx | e]; [| discriminate].
    destruct (float_of_int by_) as [fby | e]; [| discriminate].
    destruct (float_of_int bz) as [fbz | e]; [| discriminate].
    cbn [rbind]. destruct (DeepSeek.intersects _ _ _ _ _ _); [| exact IH].
    intros H. injection H as <-. right. reflexivity.
Qed.

Lemma collide_loop_free (g : DeepSeek.GameWindow) (w h px py pz : float)
  (offsets : list DeepSeek.vec3) :
  Forall (fun '(dx, dy, dz) =>
            exists c, DeepSeek.round3 (fadd px dx, fadd py dy, fadd pz dz) = Ret c /\
                      contains (DeepSeek.blocks (DeepSeek.world g)) c = false)
    offsets ->
  DeepSeek.collide_loop g w h (px, py, pz) offsets = Ret (px, py, pz).
Proof.
  induction 1 as [| [[dx dy] dz] offsets (c & Hc & Hfree) _ IH];
    cbn [DeepSeek.collide_loop]; [reflexivity |].
  rewrite Hc. cbn [rbind]. destruct c as [[bx by_] bz].
  unfold DeepSeek.is_block_at. rewrite Hfree. exact IH.
Qed.

(** X11: [collide] never invents a position: what it returns is the requested
    position or the player's current one; and when every cell of the 3x3x3
    region it scans is free, it returns the requested position. *)
Theorem collide_accepts_or_reverts (g : DeepSeek.GameWindow) (new_pos : DeepSeek.vec3) :
  (forall r, DeepSeek.collide g new_pos = Ret r ->
             r = new_pos \/ r = DeepSeek.position (DeepSeek.player g)) /\
  (scanned_cells_free g new_pos -> DeepSeek.collide g new_pos = Ret new_pos).
Proof.
  split.
  - intros r. apply collide_loop_returns.
  - destruct new_pos as [[px py] pz]. apply collide_loop_free.
Qed.

Lemma origin_cells_free :
  scanned_cells_free
    (DeepSeek.mkGameWindow DeepSeek.empty_world DeepSeek.new_player (0, 0) true)
    (f0, f0, f0).
Proof.
  unfold scanned_cells_free.
  repeat (constructor; [eexists; split; [vm_compute; reflexivity | reflexivity] |]).
  constructor.
Defined.

Lemma collide_accepts_or_reverts_witness :
  DeepSeek.collide
    (DeepSeek.mkGameWindow DeepSeek.empty_world DeepSeek.new_player (0, 0) true)
    (f0, f0, f0)
  = Ret (f0, f0, f0).
Proof.
  apply (collide_accepts_or_reverts
           (DeepSeek.mkGameWindow DeepSeek.empty_world DeepSeek.new_player (0, 0) true)
           (f0, f0, f0)).
  exact origin_cells_free.
Defined.

(** X12: when [update] returns, the player's x and z lie between -30 and 30
    and y is not below -1, whatever the movement, the time step and the state
    before; [on_ground] is set exactly when y was put on the ground level
    with the vertical velocity zeroed.  When [update] raises, the position is
    the one before.  The world is never touched. *)
Theorem update_keeps_player_in_bounds (move_vec : DeepSeek.vec3) (dt : float)
  (g : DeepSeek.GameWindow) :
  let '(r, g') := DeepSeek.update move_vec dt g in
  DeepSeek.world g' = DeepSeek.world g /\
  match r with
  | Ret _ =>
      let '(x, y, z) := DeepSeek.position (DeepSeek.player g') in
      between fm30 f30 x /\ between fm30 f30 z /\ SFltb y fm1 = false /\
      (DeepSeek.on_ground (DeepSeek.player g') = true ->
       y = fm1 /\ snd (fst (DeepSeek.velocity (DeepSeek.player g'))) = f0)
  | Raise _ =>
      DeepSeek.position (DeepSeek.player g') = DeepSeek.position (DeepSeek.player g)
  end.
Proof.
  unfold DeepSeek.update.
  destruct move_vec as [[m0 m1] m2].
  destruct g as [w [[[p0 p1] p2] rot [[v0 v1] v2] og fl h wd] st ml].
  cbn [DeepSeek.player DeepSeek.velocity DeepSeek.position DeepSeek.flying
       DeepSeek.rotation DeepSeek.height DeepSeek.width DeepSeek.on_ground
       DeepSeek.set_player DeepSeek.world DeepSeek.strafe DeepSeek.mouse_locked].
  destruct (DeepSeek.collide _ _) as [[[n0 n1] n2] | e]; [| split; reflexivity].
  destruct (SFltb n1 fm1) eqn:Ey;
    cbn [DeepSeek.player DeepSeek.velocity DeepSeek.position DeepSeek.on_ground
         DeepSeek.set_player DeepSeek.world fst snd];
    (split; [reflexivity |]);
    (split; [apply clamp_between; reflexivity |]);
    (split; [apply clamp_between; reflexivity |]).
  - split; [reflexivity |]. intros _. split; reflexivity.
  - split; [exact Ey |]. intros H. discriminate.
Qed.

(** ** [StableDiffusionWorld]: the cache after [rebuild_batch] *)

Lemma grass_world_converts : coordinates_convert (StableDiffusion.blocks grass_world).
Proof.
  intros x y z H. apply contains_true in H. destruct H as [t H].
  cbn in H. apply lookup_singleton_Some in H. destruct H as [H _]. injection H as <- <- <-.
  repeat split; eexists; vm_compute; reflexivity.
Defined.

(** X13: when every coordinate of every block converts to a float,
    [rebuild_batch] returns, leaves [blocks] as it was, and leaves in
    [visible_blocks] exactly the occupied positions in view that have an
    absent neighbour, whatever [visible_blocks] held before. *)
Theorem rebuild_batch_exact (px py pz : float) (w : StableDiffusion.World) :
  coordinates_convert (StableDiffusion.blocks w) ->
  exists w',
    StableDiffusion.rebuild_batch (px, py, pz) w = (Ret tt, w') /\
    StableDiffusion.blocks w' = StableDiffusion.blocks w /\
    cache_exact px pz w'.
Proof.
  intros Hdef.
  pose proof (rebuild_batch_total (px, py, pz) w Hdef) as Hret.
  destruct (StableDiffusion.rebuild_batch (px, py, pz) w) as [r w'] eqn:E.
  cbn [fst] in Hret. subst r. exists w'. split; [reflexivity |].
  destruct (rebuild_batch_returns (px, py, pz) w w' E) as [Hb Hvis].
  split; [exact Hb |]. intros q. rewrite Hb. apply Hvis.
Qed.

Lemma rebuild_batch_exact_witness :
  exists w',
    StableDiffusion.rebuild_batch (f0, f0, f0) grass_world = (Ret tt, w') /\
    StableDiffusion.blocks w' = StableDiffusion.blocks grass_world /\
    cache_exact f0 f0 w'.
Proof.
  apply (rebuild_batch_exact f0 f0 f0 grass_world). exact grass_world_converts.
Defined.

(** X14: when a click returns and has changed the block map, the exposure
    cache is exact again: [visible_blocks] holds exactly the occupied
    positions in view of the player that have an absent neighbour. *)
Theorem click_leaves_cache_exact (direction : StableDiffusion.vec3)
  (button : mouse.button) (g g' : StableDiffusion.StableCraftWindow) :
  StableDiffusion.on_mouse_press direction button g = (Ret tt, g') ->
  StableDiffusion.blocks (StableDiffusion.world g')
    <> StableDiffusion.blocks (StableDiffusion.world g) ->
  cache_exact (fst (fst (StableDiffusion.position (StableDiffusion.player g))))
    (snd (StableDiffusion.position (StableDiffusion.player g)))
    (StableDiffusion.world g').
Proof.
  unfold StableDiffusion.on_mouse_press. intros H Hchanged.
  destruct (StableDiffusion.mouse_locked g); cbn [negb] in H.
  2: { injection H as <-. contradiction. }
  destruct (StableDiffusion.raycast _ _ _ _) as [[hit adj] | e]; [| discriminate].
  assert (Hgo : forall w1,
    (let '(r, w') := StableDiffusion.rebuild_batch
                       (StableDiffusion.position (StableDiffusion.player g)) w1 in
     (r, StableDiffusion.set_world g w')) = (Ret tt, g') ->
    cache_exact (fst (fst (StableDiffusion.position (StableDiffusion.player g))))
      (snd (StableDiffusion.position (StableDiffusion.player g)))
      (StableDiffusion.world g')).
  { intros w1 Hw1.
    destruct (StableDiffusion.rebuild_batch _ w1) as [r w'] eqn:E.
    injection Hw1 as -> <-. cbn [StableDiffusion.set_world StableDiffusion.world].
    destruct (rebuild_batch_returns _ w1 w' E) as [Hb Hvis].
    intros q. rewrite Hb. apply Hvis. }
  destruct button.
  - destruct hit as [hit |]; [exact (Hgo _ H) |].
    injection H as <-. contradiction.
  - injection H as <-. contradiction.
  - destruct adj as [a |].
    + destruct hit; exact (Hgo _ H).
    + destruct hit; injection H as <-; contradiction.
Qed.

Lemma click_leaves_cache_exact_witness :
  cache_exact f0 f0
    (StableDiffusion.world
       (snd (StableDiffusion.on_mouse_press (f1, f0, f0) mouse.LEFT stone_ahead_window))).
Proof.
  apply (click_leaves_cache_exact (f1, f0, f0) mouse.LEFT stone_ahead_window
           (snd (StableDiffusion.on_mouse_press (f1, f0, f0) mouse.LEFT
                   stone_ahead_window))).
  - vm_compute. reflexivity.
  - intros H. apply (f_equal (fun m => m !! (2, 0, 0))) in H. vm_compute in H.
    discriminate.
Defined.

(** ** Terrain helpers *)

Lemma In_range (lo hi x : Z) : In x (range lo hi) <-> lo <= x < hi.
Proof.
  unfold range. rewrite in_map_iff. split.
  - intros (i & <- & Hi). apply in_seq in Hi. lia.
  - intros H. exists (Z.to_nat (x - lo)). split; [lia |]. apply in_seq. lia.
Qed.

(** X15: the column [(x, z)] is among the columns that [generate_chunk(cx, cz)]
    visits exactly when [get_chunk_key(x, z)] is [(cx, cz)]: every column,
    negative coordinates included, belongs to one chunk, the one its key
    names. *)
Theorem chunk_key_names_the_chunk (x z cx cz : Z) :
  In (x, z) (StableDiffusion.chunk_columns cx cz) <->
  StableDiffusion.get_chunk_key x z = (cx, cz).
Proof.
  unfold StableDiffusion.chunk_columns, StableDiffusion.get_chunk_key,
    StableDiffusion.CHUNK_s.
  rewrite in_flat_map. split.
  - intros (x' & Hx & Hz). apply in_map_iff in Hz. destruct Hz as (z' & Heq & Hz).
    injection Heq as -> ->. apply In_range in Hx, Hz.
    f_equal; symmetry.
    + apply (Z.div_unique x 16 cx (x - 16 * cx)); lia.
    + apply (Z.div_unique z 16 cz (z - 16 * cz)); lia.
  - intros H. injection H as <- <-.
    pose proof (Z.div_mod x 16 ltac:(lia)) as Hx.
    pose proof (Z.mod_pos_bound x 16 ltac:(lia)) as Hxr.
    pose proof (Z.div_mod z 16 ltac:(lia)) as Hz.
    pose proof (Z.mod_pos_bound z 16 ltac:(lia)) as Hzr.
    exists x. split; [apply In_range; lia |].
    apply in_map_iff. exists z. split; [reflexivity |]. apply In_range. lia.
Qed.

Lemma should_generate_tree_loop_spec (blocks : gmap pos string) (x y z : Z)
  (offsets : list (Z * Z)) :
  StableDiffusion.should_generate_tree_loop blocks x y z offsets = true <->
  forall dx dz, In (dx, dz) offsets -> (dx, dz) <> (0, 0) ->
                blocks !! (x + dx, y, z + dz) = None.
Proof.
  induction offsets as [| [dx dz] offsets IH];
    cbn [StableDiffusion.should_generate_tree_loop].
  - split; [intros _ dx dz [] | reflexivity].
  - destruct ((dx =? 0) && (dz =? 0)) eqn:E0.
    + rewrite IH. apply andb_true_iff in E0. destruct E0 as [Ex Ez].
      apply Z.eqb_eq in Ex, Ez. subst dx dz. split.
      * intros H dx dz [Heq | Hin] Hne; [congruence | auto].
      * intros H dx dz Hin Hne. apply H; [right; exact Hin | exact Hne].
    + assert (Hne0 : (dx, dz) <> (0, 0)).
      { intros Heq. injection Heq as -> ->. discriminate. }
      destruct (contains blocks (x + dx, y, z + dz)) eqn:Ec.
      * split; [discriminate |]. intros H.
        specialize (H dx dz (or_introl eq_refl) Hne0).
        apply contains_false in H. congruence.
      * rewrite IH. apply contains_false in Ec. split.
        -- intros H dx' dz' [Heq | Hin] Hne; [injection Heq as <- <-; exact Ec | auto].
        -- intros H dx' dz' Hin Hne. apply H; [right; exact Hin | exact Hne].
Qed.

Lemma In_tree_offsets (dx dz : Z) :
  In (dx, dz) StableDiffusion.tree_offsets <-> -2 <= dx <= 2 /\ -2 <= dz <= 2.
Proof.
  unfold StableDiffusion.tree_offsets. rewrite in_flat_map. split.
  - intros (dx' & Hx & Hz). apply in_map_iff in Hz. destruct Hz as (dz' & Heq & Hz).
    injection Heq as -> ->. cbn [In] in Hx, Hz. lia.
  - intros [Hx Hz]. exists dx. split; [cbn [In]; lia |].
    apply in_map_iff. exists dz. split; [reflexivity | cbn [In]; lia].
Qed.

(** X16: [should_generate_tree(x, y, z)] returns [True] exactly when, at
    height [y], no cell of the 5x5 square around the column is occupied, the
    column's own cell apart. *)
Theorem should_generate_tree_iff_clear (blocks : gmap pos string) (x y z : Z) :
  StableDiffusion.should_generate_tree blocks x y z = true <->
  forall dx dz, -2 <= dx <= 2 -> -2 <= dz <= 2 -> (dx, dz) <> (0, 0) ->
                blocks !! (x + dx, y, z + dz) = None.
Proof.
  unfold StableDiffusion.should_generate_tree. rewrite should_generate_tree_loop_spec.
  split.
  - intros H dx dz Hx Hz. apply H. apply In_tree_offsets. auto.
  - intros H dx dz Hin. apply In_tree_offsets in Hin. destruct Hin. apply H; assumption.
Qed.

Lemma trunk_loop_lookup (x y z : Z) (dys : list Z) :
  forall (blocks : gmap pos string) (q : pos),
    StableDiffusion.trunk_loop x y z dys blocks !! q =
    match find (fun dy => bool_decide (q = (x, y + dy, z))) dys with
    | Some _ => Some "wood"%string
    | None => blocks !! q
    end.
Proof.
  induction dys as [| dy dys IH]; intros blocks q; [reflexivity |].
  cbn [StableDiffusion.trunk_loop find]. rewrite IH.
  destruct (bool_decide (q = (x, y + dy, z))) eqn:E.
  - apply bool_decide_eq_true in E. subst q.
    destruct (find _ dys); [reflexivity | apply lookup_insert_eq].
  - apply bool_decide_eq_false in E.
    destruct (find _ dys); [reflexivity |]. apply lookup_insert_ne. congruence.
Qed.

Lemma leaf_loop_frame (x top_y z : Z) (draw : nat -> float)
  (offsets : list (Z * Z * Z)) :
  forall i blocks blocks',
    StableDiffusion.leaf_loop x top_y z draw offsets i blocks = Ret blocks' ->
    forall q : pos,
      blocks' !! q = blocks !! q \/
      (blocks !! q = None /\ blocks' !! q = Some "leaves"%string /\
       exists dx dy dz, In (dx, dy, dz) offsets /\
                        within_leaf_radius (dx, dy, dz) = true /\
                        q = (x + dx, top_y + dy, z + dz)).
Proof.
  induction offsets as [| [[dx dy] dz] offsets IH]; intros i blocks blocks' H q.
  - cbn in H. injection H as <-. left. reflexivity.
  - cbn [StableDiffusion.leaf_loop] in H.
    assert (Hlater : forall i' b1,
      StableDiffusion.leaf_loop x top_y z draw offsets i' b1 = Ret blocks' ->
      b1 = blocks ->
      blocks' !! q = blocks !! q \/
      (blocks !! q = None /\ blocks' !! q = Some "leaves"%string /\
       exists dx0 dy0 dz0, In (dx0, dy0, dz0) ((dx, dy, dz) :: offsets) /\
                        within_leaf_radius (dx0, dy0, dz0) = true /\
                        q = (x + dx0, top_y + dy0, z + dz0))).
    { intros i' b1 H1 ->. destruct (IH _ _ _ H1 q) as [Hq | (Hn & Hl & a & b & c & Hin & Hr & Hq)];
        [left; exact Hq |].
      right. split; [exact Hn |]. split; [exact Hl |].
      exists a, b, c. split; [right; exact Hin | auto]. }
    destruct (float_of_int (dx * dx + dy * dy + dz * dz)) as [sq | e] eqn:Esq;
      [| discriminate].
    cbn [rbind] in H.
    destruct (SFleb (SFsqrt prec emax sq) f2) eqn:Ed; [| eapply Hlater; eauto].
    destruct (SFltb f0_3 (draw i)); [| eapply Hlater; eauto].
    destruct (contains blocks (x + dx, top_y + dy, z + dz)) eqn:Ec; cbn [negb] in H;
      [eapply Hlater; eauto |].
    apply contains_false in Ec.
    assert (Hr : within_leaf_radius (dx, dy, dz) = true).
    { unfold within_leaf_radius. rewrite Esq. exact Ed. }
    destruct (IH _ _ _ H q) as [Hq | (Hn & Hl & a & b & c & Hin & Hr' & Hq)].
    + destruct (decide (q = (x + dx, top_y + dy, z + dz))) as [-> | Hne].
      * right. rewrite Hq, lookup_insert_eq. split; [exact Ec |].
        split; [reflexivity |]. exists dx, dy, dz. split; [left; reflexivity | auto].
      * left. rewrite Hq. apply lookup_insert_ne. congruence.
    + destruct (decide (q = (x + dx, top_y + dy, z + dz))) as [-> | Hne].
      * rewrite lookup_insert_eq in Hn. discriminate.
      * rewrite lookup_insert_ne in Hn by congruence.
        right. split; [exact Hn |]. split; [exact Hl |].
        exists a, b, c. split; [right; exact Hin | auto].
Qed.

Lemma leaf_loop_total (x top_y z : Z) (draw : nat -> float)
  (offsets : list (Z * Z * Z)) :
  Forall (fun '(dx, dy, dz) =>
            exists sq, float_of_int (dx * dx + dy * dy + dz * dz) = Ret sq) offsets ->
  forall i blocks,
    exists blocks', StableDiffusion.leaf_loop x top_y z draw offsets i blocks = Ret blocks'.
Proof.
  induction 1 as [| [[dx dy] dz] offsets [sq Hsq] _ IH]; intros i blocks.
  - eexists. reflexivity.
  - cbn [StableDiffusion.leaf_loop]. rewrite Hsq. cbn [rbind].
    destruct (SFleb _ f2); [| apply IH].
    destruct (SFltb _ _); [| apply IH].
    destruct (negb _); apply IH.
Qed.

(** At the offsets of the leaf loops, the float test [sqrt(d2) <= 2] decides
    [d2 <= 4], and the squared distance always converts. *)
Lemma leaf_offsets_checked :
  forallb (fun '(dx, dy, dz) =>
             match float_of_int (dx * dx + dy * dy + dz * dz) with
             | Ret _ =>
                 Bool.eqb (within_leaf_radius (dx, dy, dz))
                   (dx * dx + dy * dy + dz * dz <=? 4)
             | Raise _ => false
             end) StableDiffusion.leaf_offsets = true.
Proof. vm_compute. reflexivity. Qed.

Lemma In_leaf_offsets (dx dy dz : Z) :
  In (dx, dy, dz) StableDiffusion.leaf_offsets ->
  -2 <= dx <= 2 /\ -1 <= dy <= 1 /\ -2 <= dz <= 2.
Proof.
  unfold StableDiffusion.leaf_offsets. rewrite in_flat_map.
  intros (dx' & Hx & H). apply in_flat_map in H. destruct H as (dy' & Hy & H).
  apply in_map_iff in H. destruct H as (dz' & Heq & Hz). injection Heq as -> -> ->.
  apply In_range in Hx, Hy, Hz. lia.
Qed.

(** X17: [generate_tree] returns for every draw of [random]; afterwards the
    trunk cells hold wood, every other block that was there is unchanged,
    and a free cell outside the trunk is still free or holds leaves, and then
    lies within distance 2 of the trunk top and at most one level from it. *)
Theorem generate_tree_frame (draws : StableDiffusion.tree_draws) (x y z : Z)
  (blocks : gmap pos string) :
  exists blocks',
    StableDiffusion.generate_tree draws x y z blocks = Ret blocks' /\
    (forall q, in_trunk draws x y z q -> blocks' !! q = Some "wood"%string) /\
    (forall q t, ~ in_trunk draws x y z q -> blocks !! q = Some t ->
                 blocks' !! q = Some t) /\
    (forall q, ~ in_trunk draws x y z q -> blocks !! q = None ->
       blocks' !! q = None \/
       (blocks' !! q = Some "leaves"%string /\
        exists dx dy dz,
          q = (x + dx, y + StableDiffusion.trunk_height draws + dy, z + dz) /\
          dx * dx + dy * dy + dz * dz <= 4 /\ -1 <= dy <= 1)).
Proof.
  unfold StableDiffusion.generate_tree.
  set (h := StableDiffusion.trunk_height draws).
  set (b1 := StableDiffusion.trunk_loop x y z (range 0 h) blocks).
  pose proof leaf_offsets_checked as Hchk. rewrite forallb_forall in Hchk.
  assert (Htot : Forall (fun '(dx, dy, dz) =>
            exists sq, float_of_int (dx * dx + dy * dy + dz * dz) = Ret sq)
            StableDiffusion.leaf_offsets).
  { apply Forall_forall. intros [[dx dy] dz] Hin. apply list_elem_of_In in Hin.
    specialize (Hchk _ Hin). cbn beta iota in Hchk.
    destruct (float_of_int (dx * dx + dy * dy + dz * dz)) as [sq |]; [eauto | discriminate]. }
  destruct (leaf_loop_total x (y + h) z (StableDiffusion.leaf_draw draws) _ Htot 0%nat b1)
    as [blocks' Hrun].
  exists blocks'. split; [exact Hrun |].
  pose proof (leaf_loop_frame _ _ _ _ _ _ _ _ Hrun) as Hframe.
  assert (Htrunk : forall q, in_trunk draws x y z q -> b1 !! q = Some "wood"%string).
  { intros q (dy & Hdy & ->). unfold b1. rewrite trunk_loop_lookup.
    destruct (find _ (range 0 h)) eqn:E; [reflexivity |].
    pose proof (find_none _ _ E dy ltac:(apply In_range; exact Hdy)) as E'.
    cbn beta in E'. rewrite bool_decide_eq_false in E'. congruence. }
  assert (Hout : forall q, ~ in_trunk draws x y z q -> b1 !! q = blocks !! q).
  { intros q Hq. unfold b1. rewrite trunk_loop_lookup.
    destruct (find _ (range 0 h)) as [dy |] eqn:E; [| reflexivity].
    apply find_some in E. destruct E as [Hin E]. apply bool_decide_eq_true in E.
    exfalso. apply Hq. exists dy. split; [apply In_range in Hin; exact Hin | exact E]. }
  split; [| split].
  - intros q Hq. destruct (Hframe q) as [H | (Hn & _)].
    + etransitivity; [exact H | apply Htrunk, Hq].
    + pose proof (Htrunk q Hq) as Hw. congruence.
  - intros q t Hq Ht. pose proof (Hout q Hq) as Ho.
    destruct (Hframe q) as [H | (Hn & _)]; congruence.
  - intros q Hq Hfree. pose proof (Hout q Hq) as Ho.
    destruct (Hframe q) as [H | (_ & Hl & dx & dy & dz & Hin & Hr & ->)].
    + left. congruence.
    + right. split; [exact Hl |]. exists dx, dy, dz. split; [reflexivity |].
      specialize (Hchk _ Hin). cbn beta iota in Hchk.
      destruct (float_of_int (dx * dx + dy * dy + dz * dz)); [| discriminate].
      rewrite Hr in Hchk. cbn in Hchk.
      destruct (dx * dx + dy * dy + dz * dz <=? 4) eqn:E; [| discriminate].
      apply Z.leb_le in E. apply In_leaf_offsets in Hin. lia.
Qed.

(** ** [StableDiffusionWorld]: adding, then removing *)

(** X19: [remove_block] after [add_block] at the same position leaves the
    position free whatever was there, the original block included, and
    touches nothing else; when the position was free the world is the one
    before. *)
Theorem stable_add_then_remove (w : StableDiffusion.World) (p : pos)
  (block_type : string) :
  StableDiffusion.remove_block p (StableDiffusion.add_block p block_type w)
  = StableDiffusion.mkWorld (delete p (StableDiffusion.blocks w))
      (StableDiffusion.visible_blocks w) (StableDiffusion.batch w) /\
  (contains (StableDiffusion.blocks w) p = false ->
   StableDiffusion.remove_block p (StableDiffusion.add_block p block_type w) = w).
Proof.
  assert (H : StableDiffusion.remove_block p (StableDiffusion.add_block p block_type w)
              = StableDiffusion.mkWorld (delete p (StableDiffusion.blocks w))
                  (StableDiffusion.visible_blocks w) (StableDiffusion.batch w)).
  { unfold StableDiffusion.remove_block, StableDiffusion.add_block.
    cbn [StableDiffusion.blocks StableDiffusion.visible_blocks StableDiffusion.batch].
    rewrite contains_insert, delete_insert_eq. reflexivity. }
  split; [exact H |]. intros Hfree. rewrite H.
  rewrite delete_id by (apply contains_false, Hfree). destruct w. reflexivity.
Qed.

Lemma stable_add_then_remove_witness :
  StableDiffusion.remove_block (1, 0, 0)
    (StableDiffusion.add_block (1, 0, 0) "sand" grass_world) = grass_world.
Proof.
  apply (stable_add_then_remove grass_world (1, 0, 0) "sand"). reflexivity.
Defined.

(** ** Texture coordinates *)

(** X20: for every block type, known or not, [get_texture_coords] returns 24
    coordinates, each between 0 and 1; a type that is not a key of [BLOCK]
    gets the coordinates of 'STONE'. *)
Theorem texture_coords_in_atlas (block_type : string) :
  texture_coords_ok (DeepSeek.get_texture_coords block_type) = true /\
  (DeepSeek.BLOCK !! block_type = None ->
   DeepSeek.get_texture_coords block_type = DeepSeek.get_texture_coords "STONE").
Proof.
  split.
  - destruct (DeepSeek.BLOCK !! block_type) as [cells |] eqn:E.
    + pose proof BLOCK_checked as H. rewrite forallb_forall in H.
      apply elem_of_map_to_list, list_elem_of_In in E. exact (H _ E).
    + unfold DeepSeek.get_texture_coords. rewrite E. vm_compute. reflexivity.
  - intros E. unfold DeepSeek.get_texture_coords at 1. rewrite E. reflexivity.
Qed.

Lemma texture_coords_in_atlas_witness :
  DeepSeek.get_texture_coords "LAVA" = DeepSeek.get_texture_coords "STONE".
Proof.
  apply (texture_coords_in_atlas "LAVA"). vm_compute. reflexivity.
Defined.
